(** * lilliput/examples/main.go: the resize/transcode command

    A shallow embedding of [examples/main.go]: the package-level table
    [EncodeOptions], the fetch helper [readRemoteURL] and the worker
    [resize].  The collaborators the command calls but does not define (the
    file system, the HTTP client and the lilliput codec) are an environment
    of functions; every call to one of them is recorded, with its result, in
    the trace of the invocation.  Go's [defer] is a per-call stack that is
    unwound, last in first out, when the function returns.

    [main] only parses the flags into the package variables and starts
    [runs] workers; what follows is about one invocation of a worker, run
    from given values of the package variables. *)

From Stdlib Require Import ZArith Ascii String List DecimalString Lia.
From Stdlib Require DecimalPos DecimalZ.
From stdpp Require Import base option gmap strings.

Local Open Scope Z_scope.
Local Open Scope string_scope.
Local Open Scope list_scope.

(** ** Strings: the three library functions the command applies to names *)

Module strings.

(** [strings.ToLower] on the ASCII range (format labels are ASCII): the
    letters 'A'..'Z' move to 'a'..'z', every other byte is kept. *)
Definition lower_ascii (c : ascii) : ascii :=
  let n := nat_of_ascii c in
  if ((65 <=? n)%nat && (n <=? 90)%nat)%bool then ascii_of_nat (n + 32) else c.

Fixpoint ToLower (s : string) : string :=
  match s with
  | EmptyString => EmptyString
  | String c r => String (lower_ascii c) (ToLower r)
  end.

End strings.

Module fmt.

(** [%d] of an [int]: a minus sign for a negative number, then the decimal
    digits ("0" for zero). *)
Definition itoa (i : Z) : string := NilZero.string_of_int (Z.to_int i).

(** [fmt.Sprint(i, "-", name)] with [i] an [int] and the other operands
    strings: Sprint puts a space between two operands only when neither is
    a string, so nothing is inserted here. *)
Definition Sprint (i : Z) (sep name : string) : string :=
  itoa i +:+ sep +:+ name.

End fmt.

Module filepath.

(** [os.IsPathSeparator] (Unix: [PathSeparator] is '/'). *)
Definition IsPathSeparator (c : ascii) : bool := Ascii.eqb c "/"%char.

(** The loop of [filepath.Ext]:
    [for i := len(path)-1; i >= 0 && !os.IsPathSeparator(path[i]); i--]
    [{ if path[i] == '.' { return path[i:] } }; return ""].
    The counter [n] is [i+1]. *)
Fixpoint Ext_loop (path : string) (n : nat) : string :=
  match n with
  | O => ""
  | S i =>
      match String.get i path with
      | None => ""
      | Some c =>
          if IsPathSeparator c then ""
          else if Ascii.eqb c "."%char
               then String.substring i (String.length path - i) path
               else Ext_loop path i
      end
  end.

Definition Ext (path : string) : string := Ext_loop path (String.length path).

End filepath.

(** ** Data of the collaborators *)

Definition bytes := list Byte.byte.

(** A Go [error] value.  [os.IsNotExist] tells the "no such file" errors
    from the others; nothing else of an error is inspected, only printed. *)
Inductive error :=
| ErrNotExist (path : string)
| ErrOther (msg : string).

(** The pair [(value, err)] a fallible Go call returns, read the way the
    command reads it: the value only when [err == nil]. *)
Inductive result (A : Type) :=
| Ok (a : A)
| Err (e : error).
Arguments Ok {A} a.
Arguments Err {A} e.

Module os.
(** [os.IsNotExist(err)] on the [err] of [os.Stat]; [nil] is not such an
    error. *)
Definition IsNotExist (err : option error) : bool :=
  match err with
  | Some (ErrNotExist _) => true
  | _ => false
  end.
End os.

Module http.

(** [*http.Response]: the status line's code and the body stream, as they
    are when [client.Get] returns.  [Body] is what is still unread of the
    body at that moment: reading it to its end from there yields [Ok] of
    those bytes, or [Err] when the stream breaks before the end. *)
Record Response := {
  StatusCode : Z;
  Body : result bytes
}.

(** What [client.Get(url)] returns, [(resp, err)]: a response and no error
    (whatever the status code: the client reports a non-2xx status in
    [StatusCode], not as an error), an error and no response, or, when a
    redirect policy fails, an error together with the last response.  In
    that last case the response is the last redirect (a 3xx) and the client
    has already closed its body, after discarding at most the first 2 KiB
    of it, and nothing of it when its declared length is above 2 KiB:
    [Body] is then what the client left unread. *)
Inductive GetResult :=
| GetOk (resp : Response)
| GetErr (err : error)
| GetErrResp (resp : Response) (err : error).

Definition resp_of (r : GetResult) : option Response :=
  match r with
  | GetOk resp | GetErrResp resp _ => Some resp
  | GetErr _ => None
  end.

Definition err_of (r : GetResult) : option error :=
  match r with
  | GetOk _ => None
  | GetErr err | GetErrResp _ err => Some err
  end.

End http.

Module lilliput.

(** [*lilliput.ImageHeader], through its getters [Width()] and
    [Height()]. *)
Record ImageHeader := {
  Width : Z;
  Height : Z
}.

(** A [lilliput.Decoder] as the command observes it: [Description()],
    [Duration()] (nanoseconds) and the outcome of [Header()]. *)
Record Decoder := {
  Description : string;
  Duration : Z;
  Header : result ImageHeader
}.

Inductive ImageOpsSizeMethod :=
| ImageOpsNoResize
| ImageOpsFit
| ImageOpsResize.

Module ImageOptions.
(** [lilliput.ImageOptions], the fields the command sets. *)
Record t := {
  FileType : string;
  Width : Z;
  Height : Z;
  ResizeMethod : ImageOpsSizeMethod;
  NormalizeOrientation : bool;
  EncodeOptions : gmap Z Z
}.
End ImageOptions.

End lilliput.

(** The package-level variables set from the command line. *)
Record Globals := {
  inputFilename : string;
  outputWidth : Z;
  outputHeight : Z;
  outputFilename : string;
  stretch : bool;
  runs : Z;
  remoteInput : string
}.

Definition set_outputWidth (w : Z) (g : Globals) : Globals :=
  {| inputFilename := inputFilename g; outputWidth := w;
     outputHeight := outputHeight g; outputFilename := outputFilename g;
     stretch := stretch g; runs := runs g; remoteInput := remoteInput g |}.

Definition set_outputHeight (h : Z) (g : Globals) : Globals :=
  {| inputFilename := inputFilename g; outputWidth := outputWidth g;
     outputHeight := h; outputFilename := outputFilename g;
     stretch := stretch g; runs := runs g; remoteInput := remoteInput g |}.

(** ** Effects *)

(** What [fmt.Printf] is asked to print, one constructor per format string
    of the command, with its arguments. *)
Inductive Message :=
| MsgNoInput
| MsgReadInputFailed (e : error)
| MsgReadRemoteFailed (e : error)
| MsgDecodeError (e : error)
| MsgHeaderError (e : error)
| MsgFileType (description : string)
| MsgSize (w h : Z)
| MsgDuration (d : Z)
| MsgTransformError (e : error)
| MsgOutputExists (name : string)
| MsgWriteError (e : error)
| MsgWritten (name : string).

(** One entry per call that leaves the function, with what came back. *)
Inductive Event :=
| EvPrintf (m : Message)
| EvUsage
| EvReadFile (name : string) (r : result bytes)
| EvGet (url : string) (r : http.GetResult)
| EvReadAll (r : result bytes)
| EvBodyClose
| EvNewDecoder (buf : bytes) (r : result lilliput.Decoder)
| EvHeader (r : result lilliput.ImageHeader)
| EvNewImageOps (maxSize : Z)
| EvTransform (opts : lilliput.ImageOptions.t) (dstLen : Z) (r : result bytes)
| EvStat (name : string) (err : option error)
| EvWriteFile (name : string) (data : bytes) (perm : Z) (err : option error)
| EvDecoderClose
| EvOpsClose
| EvWgDone.

(** The collaborators: what each call answers, and the three option keys
    the lilliput package exports as [int] constants. *)
Record Env := {
  JpegQuality : Z;
  PngCompression : Z;
  WebpQuality : Z;
  ReadFile : string -> result bytes;
  Get : string -> http.GetResult;
  NewDecoder : bytes -> result lilliput.Decoder;
  Transform :
    lilliput.Decoder -> lilliput.ImageOptions.t -> Z -> result bytes;
  Stat : string -> option error;
  WriteFile : string -> bytes -> Z -> option error
}.

(** A function body runs over the package variables and its own stack of
    deferred calls, appends to the trace, and either goes on with a value or
    executes [return]. *)
Inductive Outcome (R A : Type) :=
| Next (a : A)
| Return (r : R).
Arguments Next {R A} a.
Arguments Return {R A} r.

Record Frame := {
  vars : Globals;
  deferred : list Event
}.

Definition Fn (R A : Type) : Type := Frame -> list Event * Frame * Outcome R A.

Definition pure {R A} (a : A) : Fn R A := fun f => ([], f, Next a).

Definition bind {R A B} (m : Fn R A) (k : A -> Fn R B) : Fn R B :=
  fun f =>
    match m f with
    | (t1, f1, Next a) =>
        match k a f1 with
        | (t2, f2, o) => (t1 ++ t2, f2, o)
        end
    | (t1, f1, Return r) => (t1, f1, Return r)
    end.

Definition return_ {R A} (r : R) : Fn R A := fun f => ([], f, Return r).

Definition emit {R} (e : Event) : Fn R unit := fun f => ([e], f, Next tt).

(** [defer call]: pushed now, run when the function returns. *)
Definition defer {R} (e : Event) : Fn R unit :=
  fun f => ([], {| vars := vars f; deferred := e :: deferred f |}, Next tt).

Definition read_vars {R} : Fn R Globals := fun f => ([], f, Next (vars f)).

Definition update_vars {R} (u : Globals -> Globals) : Fn R unit :=
  fun f => ([], {| vars := u (vars f); deferred := deferred f |}, Next tt).

Definition when {R} (b : bool) (m : Fn R unit) : Fn R unit :=
  if b then m else pure tt.

Declare Scope fn_scope.
Delimit Scope fn_scope with fn.
Notation "'let*' x := m 'in' k" := (bind m (fun x => k))
  (at level 10, x name, m at level 100, k at level 200) : fn_scope.
Notation "m ;; k" := (bind m (fun _ => k))
  (at level 100, k at level 200, right associativity) : fn_scope.

(** A call of a function: a fresh stack of deferred calls, the body, then
    the deferred calls from the last pushed to the first.  A body that runs
    off its end returns its value. *)
Definition call {R} (body : Fn R R) (g : Globals) : list Event * Globals * R :=
  match body {| vars := g; deferred := [] |} with
  | (t, f, Next r) | (t, f, Return r) => (t ++ deferred f, vars f, r)
  end.

(** The same call made from inside another body. *)
Definition invoke {R' R} (body : Fn R R) : Fn R' R :=
  fun f =>
    match call body (vars f) with
    | (t, g, r) => (t, {| vars := g; deferred := deferred f |}, Next r)
    end.

(** ** The program *)

Section Program.

Variable env : Env.

Local Open Scope fn_scope.

(** [var EncodeOptions = map[string]map[int]int{...}] *)
Definition EncodeOptions : gmap string (gmap Z Z) :=
  <[".webp" := {[ WebpQuality env := 85 ]}]>
  (<[".png" := {[ PngCompression env := 7 ]}]>
  (<[".jpeg" := {[ JpegQuality env := 85 ]}]> ∅)).

(** [EncodeOptions[outputType]]: indexing a Go map never fails; a missing
    key yields the zero value of the element type, here the nil map, which
    has no entries. *)
Definition EncodeOptions_at (outputType : string) : gmap Z Z :=
  default ∅ (EncodeOptions !! outputType).

Definition printf {R} (m : Message) : Fn R unit := emit (EvPrintf m).

Definition client_Get {R} (url : string) : Fn R http.GetResult :=
  let r := Get env url in emit (EvGet url r);; pure r.

Definition ioutil_ReadAll {R} (resp : http.Response) : Fn R (result bytes) :=
  let r := http.Body resp in emit (EvReadAll r);; pure r.

Definition ioutil_ReadFile {R} (name : string) : Fn R (result bytes) :=
  let r := ReadFile env name in emit (EvReadFile name r);; pure r.

Definition lilliput_NewDecoder {R} (buf : bytes)
  : Fn R (result lilliput.Decoder) :=
  let r := NewDecoder env buf in emit (EvNewDecoder buf r);; pure r.

Definition decoder_Header {R} (d : lilliput.Decoder)
  : Fn R (result lilliput.ImageHeader) :=
  let r := lilliput.Header d in emit (EvHeader r);; pure r.

Definition ops_Transform {R} (d : lilliput.Decoder)
    (opts : lilliput.ImageOptions.t) (dstLen : Z) : Fn R (result bytes) :=
  let r := Transform env d opts dstLen in
  emit (EvTransform opts dstLen r);; pure r.

Definition os_Stat {R} (name : string) : Fn R (option error) :=
  let r := Stat env name in emit (EvStat name r);; pure r.

Definition ioutil_WriteFile {R} (name : string) (data : bytes) (perm : Z)
  : Fn R (option error) :=
  let r := WriteFile env name data perm in
  emit (EvWriteFile name data perm r);; pure r.

(** [func readRemoteURL(url string) ([]byte, error)].  The three answers
    of [client.Get] are the three ways the tests [resp != nil] and
    [err != nil] can come out. *)
Definition readRemoteURL (url : string) : Fn (result bytes) (result bytes) :=
  let* r := client_Get url in
  match r with
  | http.GetErr err =>
      (* resp == nil: nothing deferred; err != nil *)
      return_ (Err err)
  | http.GetErrResp resp err =>
      defer EvBodyClose;;
      return_ (Err err)
  | http.GetOk resp =>
      defer EvBodyClose;;
      let* body := ioutil_ReadAll resp in
      match body with
      | Err err => return_ (Err err)
      | Ok body => return_ (Ok body)
      end
  end.

(** The name the worker writes to, as line 54 builds it. *)
Definition worker_name (i : Z) (g : Globals) : string :=
  fmt.Sprint i "-" (outputFilename g).

(** Lines 62-78 of [resize]: fill [inputBuf] from the file or the URL. *)
Definition resize_input (g : Globals) : Fn unit bytes :=
  if negb (String.eqb (inputFilename g) "") then
    let* r := ioutil_ReadFile (inputFilename g) in
    match r with
    | Err err => printf (MsgReadInputFailed err);; return_ tt
    | Ok buf => pure buf
    end
  else if negb (String.eqb (remoteInput g) "") then
    let* r := invoke (readRemoteURL (remoteInput g)) in
    match r with
    | Err err => printf (MsgReadRemoteFailed err);; return_ tt
    | Ok buf => pure buf
    end
  else pure [].

(** Lines 128-140 of [resize]: the options handed to [Transform], from
    the package variables as they stand after lines 120-126. *)
Definition resize_options (g : Globals) (outputType : string)
  : lilliput.ImageOptions.t :=
  let resizeMethod :=
    if stretch g then lilliput.ImageOpsResize else lilliput.ImageOpsFit in
  {| lilliput.ImageOptions.FileType := outputType;
     lilliput.ImageOptions.Width := outputWidth g;
     lilliput.ImageOptions.Height := outputHeight g;
     lilliput.ImageOptions.ResizeMethod := resizeMethod;
     lilliput.ImageOptions.NormalizeOrientation := true;
     lilliput.ImageOptions.EncodeOptions := EncodeOptions_at outputType |}.

(** Lines 80-165 of [resize]: detect, read the header, transform, write.
    [outputFilename'] is the local variable of line 54. *)
Definition resize_image (outputFilename' : string) (inputBuf : bytes)
  : Fn unit unit :=
  let* d := lilliput_NewDecoder inputBuf in
  match d with
  | Err err => printf (MsgDecodeError err);; return_ tt
  | Ok decoder =>
  defer EvDecoderClose;;
  let* h := decoder_Header decoder in
  match h with
  | Err err => printf (MsgHeaderError err);; return_ tt
  | Ok header =>
  printf (MsgFileType (lilliput.Description decoder));;
  printf (MsgSize (lilliput.Width header) (lilliput.Height header));;
  when (negb (Z.eqb (lilliput.Duration decoder) 0))
       (printf (MsgDuration (lilliput.Duration decoder)));;
  emit (EvNewImageOps 8192);;
  defer EvOpsClose;;
  let outputImg := 50 * 1024 * 1024 in
  let outputType := "." +:+ strings.ToLower (lilliput.Description decoder) in
  let outputType :=
    if negb (String.eqb outputFilename' "")
    then filepath.Ext outputFilename' else outputType in
  let* g := read_vars in
  when (Z.eqb (outputWidth g) 0)
       (update_vars (set_outputWidth (lilliput.Width header)));;
  let* g := read_vars in
  when (Z.eqb (outputHeight g) 0)
       (update_vars (set_outputHeight (lilliput.Height header)));;
  let* g := read_vars in
  let opts := resize_options g outputType in
  let* r := ops_Transform decoder opts outputImg in
  match r with
  | Err err => printf (MsgTransformError err);; return_ tt
  | Ok outputImg =>
  let outputFilename' :=
    if String.eqb outputFilename' ""
    then "resized" +:+ filepath.Ext (inputFilename g)
    else outputFilename' in
  let* st := os_Stat outputFilename' in
  if negb (os.IsNotExist st) then
    printf (MsgOutputExists outputFilename');;
    return_ tt
  else
  let* err := ioutil_WriteFile outputFilename' outputImg 256 (* 0400 *) in
  match err with
  | Some err => printf (MsgWriteError err);; return_ tt
  | None =>
  printf (MsgWritten outputFilename')
  end end end end.

(** [func resize(i int)] *)
Definition resize (i : Z) : Fn unit unit :=
  defer EvWgDone;;
  let* g := read_vars in
  let outputFilename' := worker_name i g in
  if (String.eqb (inputFilename g) "" && String.eqb (remoteInput g) "")%bool
  then
    printf MsgNoInput;;
    emit EvUsage;;
    return_ tt
  else
  let* inputBuf := resize_input g in
  resize_image outputFilename' inputBuf.

(** One invocation of the worker: the trace it leaves and the package
    variables after it. *)
Definition run_resize (g : Globals) (i : Z) : list Event * Globals :=
  match call (resize i) g with
  | (t, g', _) => (t, g')
  end.

Definition trace_of (g : Globals) (i : Z) : list Event :=
  fst (run_resize g i).

(** One fetch on its own. *)
Definition run_fetch (g : Globals) (url : string)
  : list Event * result bytes :=
  match call (readRemoteURL url) g with
  | (t, _, r) => (t, r)
  end.

End Program.

(** ** The exits of the program

    The runs of [readRemoteURL] and [resize], one constructor per exit, each
    with the answers of the collaborators that lead to it and the trace it
    leaves.  These are derived from the definitions above (lemmas
    [run_fetch_Fetched] and [run_resize_Ran]); the theorems about the program
    are read off them. *)

Section Exits.

Variable env : Env.
Variable g : Globals.

(** A run of [readRemoteURL url]: its trace, deferred close included, and
    its result. *)
Inductive Fetched (url : string) : list Event -> result bytes -> Prop :=
| fetched_no_response err :
    Get env url = http.GetErr err ->
    Fetched url [EvGet url (http.GetErr err)] (Err err)
| fetched_error_with_response resp err :
    Get env url = http.GetErrResp resp err ->
    Fetched url [EvGet url (http.GetErrResp resp err); EvBodyClose] (Err err)
| fetched_response resp :
    Get env url = http.GetOk resp ->
    Fetched url
      [EvGet url (http.GetOk resp); EvReadAll (http.Body resp); EvBodyClose]
      (http.Body resp).

(** Lines 62-78: the trace of the block and the buffer it leaves in
    [inputBuf], or [None] when the block returns from [resize]. *)
Inductive Acquired : list Event -> option bytes -> Prop :=
| acquired_file buf :
    inputFilename g <> "" ->
    ReadFile env (inputFilename g) = Ok buf ->
    Acquired [EvReadFile (inputFilename g) (Ok buf)] (Some buf)
| acquired_file_error err :
    inputFilename g <> "" ->
    ReadFile env (inputFilename g) = Err err ->
    Acquired [EvReadFile (inputFilename g) (Err err);
              EvPrintf (MsgReadInputFailed err)] None
| acquired_remote t buf :
    inputFilename g = "" -> remoteInput g <> "" ->
    Fetched (remoteInput g) t (Ok buf) ->
    Acquired t (Some buf)
| acquired_remote_error t err :
    inputFilename g = "" -> remoteInput g <> "" ->
    Fetched (remoteInput g) t (Err err) ->
    Acquired (t ++ [EvPrintf (MsgReadRemoteFailed err)]) None
| acquired_nothing :
    inputFilename g = "" -> remoteInput g = "" ->
    Acquired [] (Some []).

(** The width and height a request resolves to against a source header:
    a requested 0 stands for the source's own dimension. *)
Definition resolved_width (h : lilliput.ImageHeader) : Z :=
  if Z.eqb (outputWidth g) 0 then lilliput.Width h else outputWidth g.

Definition resolved_height (h : lilliput.ImageHeader) : Z :=
  if Z.eqb (outputHeight g) 0 then lilliput.Height h else outputHeight g.

(** The package variables after lines 120-126. *)
Definition resolved (h : lilliput.ImageHeader) : Globals :=
  set_outputHeight (resolved_height h) (set_outputWidth (resolved_width h) g).

Definition duration_note (d : lilliput.Decoder) : list Event :=
  if Z.eqb (lilliput.Duration d) 0 then []
  else [EvPrintf (MsgDuration (lilliput.Duration d))].

(** From detection to the creation of the image operations, when both
    detection and header reading succeed. *)
Definition prologue (buf : bytes) (d : lilliput.Decoder)
    (h : lilliput.ImageHeader) : list Event :=
  [EvNewDecoder buf (Ok d); EvHeader (Ok h);
   EvPrintf (MsgFileType (lilliput.Description d));
   EvPrintf (MsgSize (lilliput.Width h) (lilliput.Height h))]
  ++ duration_note d ++ [EvNewImageOps 8192].

Definition outputImg_len : Z := 52428800.

Variable i : Z.

Definition target_options (h : lilliput.ImageHeader)
  : lilliput.ImageOptions.t :=
  resize_options env (resolved h) (filepath.Ext (worker_name i g)).

(** Lines 80-165 on the buffer [buf]: the trace of the block, the calls it
    deferred (last first) and the package variables it leaves. *)
Inductive Processed (buf : bytes)
  : list Event -> list Event -> Globals -> Prop :=
| processed_unrecognized err :
    NewDecoder env buf = Err err ->
    Processed buf
      [EvNewDecoder buf (Err err); EvPrintf (MsgDecodeError err)] [] g
| processed_bad_header d err :
    NewDecoder env buf = Ok d ->
    lilliput.Header d = Err err ->
    Processed buf
      [EvNewDecoder buf (Ok d); EvHeader (Err err);
       EvPrintf (MsgHeaderError err)]
      [EvDecoderClose] g
| processed_transform_error d h err :
    NewDecoder env buf = Ok d ->
    lilliput.Header d = Ok h ->
    Transform env d (target_options h) outputImg_len = Err err ->
    Processed buf
      (prologue buf d h ++
       [EvTransform (target_options h) outputImg_len (Err err);
        EvPrintf (MsgTransformError err)])
      [EvOpsClose; EvDecoderClose] (resolved h)
| processed_output_exists d h out :
    NewDecoder env buf = Ok d ->
    lilliput.Header d = Ok h ->
    Transform env d (target_options h) outputImg_len = Ok out ->
    os.IsNotExist (Stat env (worker_name i g)) = false ->
    Processed buf
      (prologue buf d h ++
       [EvTransform (target_options h) outputImg_len (Ok out);
        EvStat (worker_name i g) (Stat env (worker_name i g));
        EvPrintf (MsgOutputExists (worker_name i g))])
      [EvOpsClose; EvDecoderClose] (resolved h)
| processed_write_error d h out err :
    NewDecoder env buf = Ok d ->
    lilliput.Header d = Ok h ->
    Transform env d (target_options h) outputImg_len = Ok out ->
    os.IsNotExist (Stat env (worker_name i g)) = true ->
    WriteFile env (worker_name i g) out 256 = Some err ->
    Processed buf
      (prologue buf d h ++
       [EvTransform (target_options h) outputImg_len (Ok out);
        EvStat (worker_name i g) (Stat env (worker_name i g));
        EvWriteFile (worker_name i g) out 256 (Some err);
        EvPrintf (MsgWriteError err)])
      [EvOpsClose; EvDecoderClose] (resolved h)
| processed_written d h out :
    NewDecoder env buf = Ok d ->
    lilliput.Header d = Ok h ->
    Transform env d (target_options h) outputImg_len = Ok out ->
    os.IsNotExist (Stat env (worker_name i g)) = true ->
    WriteFile env (worker_name i g) out 256 = None ->
    Processed buf
      (prologue buf d h ++
       [EvTransform (target_options h) outputImg_len (Ok out);
        EvStat (worker_name i g) (Stat env (worker_name i g));
        EvWriteFile (worker_name i g) out 256 None;
        EvPrintf (MsgWritten (worker_name i g))])
      [EvOpsClose; EvDecoderClose] (resolved h).

(** A run of [resize i]: its trace, deferred calls included, and the
    package variables it leaves. *)
Inductive Ran : list Event -> Globals -> Prop :=
| ran_usage :
    inputFilename g = "" -> remoteInput g = "" ->
    Ran [EvPrintf MsgNoInput; EvUsage; EvWgDone] g
| ran_no_input t :
    ~ (inputFilename g = "" /\ remoteInput g = "") ->
    Acquired t None ->
    Ran (t ++ [EvWgDone]) g
| ran_image tA buf tB ds g' :
    ~ (inputFilename g = "" /\ remoteInput g = "") ->
    Acquired tA (Some buf) ->
    Processed buf tB ds g' ->
    Ran (tA ++ tB ++ ds ++ [EvWgDone]) g'.

End Exits.

(** ** Reading a trace *)

(** The five steps of an invocation. *)
Inductive Step :=
| Acquire
| Detect
| ReadHeader
| TransformStep
| WriteOutput.

Definition pipeline : list Step :=
  [Acquire; Detect; ReadHeader; TransformStep; WriteOutput].

(** The call that starts a step: reading the file or sending the request
    starts acquisition (reading the response body continues it). *)
Definition step_of (e : Event) : option Step :=
  match e with
  | EvReadFile _ _ | EvGet _ _ => Some Acquire
  | EvNewDecoder _ _ => Some Detect
  | EvHeader _ => Some ReadHeader
  | EvTransform _ _ _ => Some TransformStep
  | EvWriteFile _ _ _ _ => Some WriteOutput
  | _ => None
  end.

Definition steps (t : list Event) : list Step := omap step_of t.

(** A call of a step that came back with an error. *)
Definition failed (e : Event) : bool :=
  match e with
  | EvReadFile _ (Err _)
  | EvGet _ (http.GetErr _)
  | EvGet _ (http.GetErrResp _ _)
  | EvReadAll (Err _)
  | EvNewDecoder _ (Err _)
  | EvHeader (Err _)
  | EvTransform _ _ (Err _)
  | EvWriteFile _ _ _ (Some _) => true
  | _ => false
  end.

(** The calls that do the work of a step, as opposed to printing and to
    releasing a resource. *)
Definition is_work (e : Event) : bool :=
  match e with
  | EvReadFile _ _ | EvGet _ _ | EvReadAll _ | EvNewDecoder _ _ | EvHeader _
  | EvNewImageOps _ | EvTransform _ _ _ | EvStat _ _ | EvWriteFile _ _ _ _ =>
      true
  | _ => false
  end.

(** After a failed call nothing but printing and releasing follows. *)
Fixpoint stops_at_failure (t : list Event) : bool :=
  match t with
  | [] => true
  | e :: post =>
      (if failed e then forallb (fun e' => negb (is_work e')) post else true)
      && stops_at_failure post
  end.

Definition detection_ran (t : list Event) : Prop :=
  exists buf r, In (EvNewDecoder buf r) t.

(** By the end of the trace [t] of a fetch, the body of the response [r]
    carries is fully drained: [ioutil.ReadAll] read it to its end, or there
    was nothing left unread in it when [client.Get] returned. *)
Definition body_drained (r : http.GetResult) (t : list Event) : Prop :=
  exists resp,
    http.resp_of r = Some resp /\
    ((exists b, In (EvReadAll (Ok b)) t) \/ http.Body resp = Ok []).

Definition is_success_status (code : Z) : bool :=
  ((200 <=? code)%Z && (code <=? 299)%Z)%bool.

(** ** Sample collaborators and requests *)

Module Sample.

Definition header : lilliput.ImageHeader :=
  {| lilliput.Width := 4000; lilliput.Height := 3000 |}.

(** A decoder for a 4000x3000 still JPEG. *)
Definition jpeg : lilliput.Decoder :=
  {| lilliput.Description := "JPEG";
     lilliput.Duration := 0;
     lilliput.Header := Ok header |}.

Definition file_bytes : bytes := [Byte.xff; Byte.xd8; Byte.xff].
Definition page_bytes : bytes := [Byte.x34; Byte.x30; Byte.x34].
Definition out_bytes : bytes := [Byte.x6f; Byte.x75; Byte.x74].

(** The server answers 404 with a small page. *)
Definition not_found : http.Response :=
  {| http.StatusCode := 404; http.Body := Ok page_bytes |}.

(** Every file can be read, the server answers every request with
    [not_found], every buffer is taken for a JPEG, every transform
    succeeds, no output exists yet and every write succeeds. *)
Definition env : Env :=
  {| JpegQuality := 1;
     PngCompression := 16;
     WebpQuality := 64;
     ReadFile := fun _ => Ok file_bytes;
     Get := fun _ => http.GetOk not_found;
     NewDecoder := fun _ => Ok jpeg;
     Transform := fun _ _ _ => Ok out_bytes;
     Stat := fun name => Some (ErrNotExist name);
     WriteFile := fun _ _ _ => None |}.

(** The last answer of a server that redirects for ever: a 302 whose page
    is declared 3000 bytes long.  The client closes such a body without
    reading it (it is above 2 KiB), so all of the page is left unread. *)
Definition redirect_page : http.Response :=
  {| http.StatusCode := 302; http.Body := Ok (List.repeat Byte.x2e 3000) |}.

(** The same, but the client gives up after ten redirects: it reports an
    error together with the last response, [redirect_page]. *)
Definition redirect_env : Env :=
  {| JpegQuality := 1;
     PngCompression := 16;
     WebpQuality := 64;
     ReadFile := fun _ => Ok file_bytes;
     Get := fun _ =>
       http.GetErrResp redirect_page (ErrOther "stopped after 10 redirects");
     NewDecoder := fun _ => Ok jpeg;
     Transform := fun _ _ _ => Ok out_bytes;
     Stat := fun name => Some (ErrNotExist name);
     WriteFile := fun _ _ _ => None |}.

(** [-input in.jpg] and nothing else. *)
Definition local_request : Globals :=
  {| inputFilename := "in.jpg"; outputWidth := 0; outputHeight := 0;
     outputFilename := ""; stretch := false; runs := 1; remoteInput := "" |}.

(** [-remoteInput http://host/missing.jpg -output out.png -width 800] *)
Definition remote_request : Globals :=
  {| inputFilename := ""; outputWidth := 800; outputHeight := 0;
     outputFilename := "out.png"; stretch := false; runs := 1;
     remoteInput := "http://host/missing.jpg" |}.

(** Both [-input] and [-remoteInput]. *)
Definition both_request : Globals :=
  {| inputFilename := "in.jpg"; outputWidth := 0; outputHeight := 0;
     outputFilename := "out.jpeg"; stretch := true; runs := 1;
     remoteInput := "http://host/in.jpg" |}.

(** No flags at all. *)
Definition empty_request : Globals :=
  {| inputFilename := ""; outputWidth := 0; outputHeight := 0;
     outputFilename := ""; stretch := false; runs := 1; remoteInput := "" |}.

End Sample.

(** ** [main]: the flags and the workers *)

(** The package variables as the seven [flag.*Var] calls of lines 35-41
    register them: the value each has when the command line does not set
    it. *)
Definition flag_defaults : Globals :=
  {| inputFilename := ""; outputWidth := 0; outputHeight := 0;
     outputFilename := ""; stretch := false; runs := 1; remoteInput := "" |}.

(** What [main] itself does to the wait group and the scheduler. *)
Inductive MainEvent :=
| MainWgAdd (delta : Z)
| MainGo (i : Z)
| MainWgWait.

(** [for i := 0; i < runs; i++ { wg.Add(1); go resize(i) }], from the
    current [i].  The fuel bounds the number of iterations; the loop itself
    stops on its test (lemma [main_loop_fuel]). *)
Fixpoint main_loop (fuel : nat) (i runs : Z) : list MainEvent :=
  match fuel with
  | O => []
  | S fuel' =>
      if Z.ltb i runs
      then MainWgAdd 1 :: MainGo i :: main_loop fuel' (i + 1) runs
      else []
  end.

(** [func main()], from the package variables [flag.Parse()] leaves: the
    loop, then [wg.Wait()]. *)
Definition main (g : Globals) : list MainEvent :=
  main_loop (Z.to_nat (runs g)) 0 (runs g) ++ [MainWgWait].

(** The indices of the workers [main] starts, in order. *)
Fixpoint spawned (m : list MainEvent) : list Z :=
  match m with
  | [] => []
  | MainGo i :: m' => i :: spawned m'
  | _ :: m' => spawned m'
  end.

(** The total [main] adds to the wait group. *)
Fixpoint added (m : list MainEvent) : Z :=
  match m with
  | [] => 0
  | MainWgAdd d :: m' => d + added m'
  | _ :: m' => added m'
  end.

(** ** Counting the entries of a trace *)

Fixpoint count (p : Event -> bool) (t : list Event) : nat :=
  match t with
  | [] => O
  | e :: t' => if p e then S (count p t') else count p t'
  end.

Definition is_wg_done (e : Event) : bool :=
  match e with EvWgDone => true | _ => false end.

Definition is_decoder_created (e : Event) : bool :=
  match e with EvNewDecoder _ (Ok _) => true | _ => false end.

Definition is_decoder_close (e : Event) : bool :=
  match e with EvDecoderClose => true | _ => false end.

Definition is_ops_created (e : Event) : bool :=
  match e with EvNewImageOps _ => true | _ => false end.

Definition is_ops_close (e : Event) : bool :=
  match e with EvOpsClose => true | _ => false end.

(** A request that came back with a response (with or without an error). *)
Definition is_response (e : Event) : bool :=
  match e with
  | EvGet _ r => match http.resp_of r with Some _ => true | None => false end
  | _ => false
  end.

Definition is_body_close (e : Event) : bool :=
  match e with EvBodyClose => true | _ => false end.

Definition is_read_file (e : Event) : bool :=
  match e with EvReadFile _ _ => true | _ => false end.

Definition is_get (e : Event) : bool :=
  match e with EvGet _ _ => true | _ => false end.

Definition is_write_file (e : Event) : bool :=
  match e with EvWriteFile _ _ _ _ => true | _ => false end.


(** More collaborators for the sample runs. *)
Module Scenario.

(** As [Sample.env], but the output name is already taken: [os.Stat] finds
    the file. *)
Definition taken_env : Env :=
  {| JpegQuality := 1;
     PngCompression := 16;
     WebpQuality := 64;
     ReadFile := fun _ => Ok Sample.file_bytes;
     Get := fun _ => http.GetOk Sample.not_found;
     NewDecoder := fun _ => Ok Sample.jpeg;
     Transform := fun _ _ _ => Ok Sample.out_bytes;
     Stat := fun _ => None;
     WriteFile := fun _ _ _ => None |}.

(** As [Sample.env], but the transform fails. *)
Definition failing_env : Env :=
  {| JpegQuality := 1;
     PngCompression := 16;
     WebpQuality := 64;
     ReadFile := fun _ => Ok Sample.file_bytes;
     Get := fun _ => http.GetOk Sample.not_found;
     NewDecoder := fun _ => Ok Sample.jpeg;
     Transform := fun _ _ _ => Err (ErrOther "Framebuffer is too small");
     Stat := fun name => Some (ErrNotExist name);
     WriteFile := fun _ _ _ => None |}.

(** A two-second animation, 320x240. *)
Definition gif : lilliput.Decoder :=
  {| lilliput.Description := "GIF";
     lilliput.Duration := 2000000000;
     lilliput.Header := Ok {| lilliput.Width := 320; lilliput.Height := 240 |} |}.

Definition gif_env : Env :=
  {| JpegQuality := 1;
     PngCompression := 16;
     WebpQuality := 64;
     ReadFile := fun _ => Ok Sample.file_bytes;
     Get := fun _ => http.GetOk Sample.not_found;
     NewDecoder := fun _ => Ok gif;
     Transform := fun _ _ _ => Ok Sample.out_bytes;
     Stat := fun name => Some (ErrNotExist name);
     WriteFile := fun _ _ _ => None |}.

(** [-input in.jpg -output out.webp -width 640 -runs 3]. *)
Definition webp_request : Globals :=
  {| inputFilename := "in.jpg"; outputWidth := 640; outputHeight := 0;
     outputFilename := "out.webp"; stretch := false; runs := 3;
     remoteInput := "" |}.

End Scenario.

(** A name with no dot and no path separator. *)
Fixpoint plain (s : string) : bool :=
  match s with
  | EmptyString => true
  | String c r =>
      negb (filepath.IsPathSeparator c) && negb (Ascii.eqb c "."%char) && plain r
  end.

(** ** Facts about names *)

Section Names.

Lemma plain_get p : plain p = true ->
  forall n c, String.get n p = Some c ->
    filepath.IsPathSeparator c = false /\ Ascii.eqb c "."%char = false.
Proof.
  induction p as [|a p IH]; simpl; intros Hp n c Hget; [discriminate|].
  apply andb_prop in Hp as [Ha Hp]. apply andb_prop in Ha as [Hs Hd].
  destruct n as [|n].
  - injection Hget as <-. split; now apply negb_true_iff.
  - eauto.
Qed.

Lemma plain_append a b : plain (a +:+ b) = (plain a && plain b)%bool.
Proof.
  induction a as [|c a IH]; simpl; [reflexivity|].
  rewrite IH. now rewrite andb_assoc.
Qed.

Lemma plain_uint d : plain (NilEmpty.string_of_uint d) = true.
Proof. induction d; simpl; auto. Qed.

Lemma plain_itoa i : plain (fmt.itoa i) = true.
Proof.
  unfold fmt.itoa, NilZero.string_of_int, NilZero.string_of_uint.
  destruct (Z.to_int i) as [d|d]; destruct d; simpl; auto using plain_uint.
Qed.

Lemma length_append a b :
  String.length (a +:+ b) = (String.length a + String.length b)%nat.
Proof. induction a as [|x a IH]; simpl; [reflexivity | now rewrite IH]. Qed.

Lemma substring_skip_prefix p s k m :
  String.substring (String.length p + k) m (p +:+ s) = String.substring k m s.
Proof. induction p; simpl; auto. Qed.

(** Scanning down through a plain prefix finds nothing. *)
Lemma Ext_loop_in_plain_prefix p s n :
  plain p = true -> (n <= String.length p)%nat ->
  filepath.Ext_loop (p +:+ s) n = "".
Proof.
  intros Hp. induction n as [|n IH]; intros Hn; simpl; [reflexivity|].
  rewrite <- (append_correct1 p s n) by lia.
  destruct (String.get n p) as [c|] eqn:Hc; [|reflexivity].
  destruct (plain_get p Hp n c Hc) as [-> ->]. apply IH. lia.
Qed.

Lemma Ext_loop_skip_prefix p s n :
  plain p = true ->
  filepath.Ext_loop (p +:+ s) (String.length p + n) = filepath.Ext_loop s n.
Proof.
  intros Hp. induction n as [|n IH].
  - rewrite Nat.add_0_r. simpl. now apply Ext_loop_in_plain_prefix.
  - rewrite Nat.add_succ_r. simpl.
    replace (String.length p + n)%nat with (n + String.length p)%nat at 1 by lia.
    rewrite <- append_correct2.
    destruct (String.get n s) as [c|]; [|reflexivity].
    destruct (filepath.IsPathSeparator c); [reflexivity|].
    destruct (Ascii.eqb c "."); [|exact IH].
    rewrite length_append.
    replace (String.length p + String.length s - (String.length p + n))%nat
      with (String.length s - n)%nat by lia.
    apply substring_skip_prefix.
Qed.

(** A plain prefix does not change the extension of a name. *)
Lemma Ext_plain_prefix p s :
  plain p = true -> filepath.Ext (p +:+ s) = filepath.Ext s.
Proof.
  intros Hp. unfold filepath.Ext. rewrite length_append.
  now apply Ext_loop_skip_prefix.
Qed.

Lemma append_assoc a b c : (a +:+ b) +:+ c = a +:+ (b +:+ c).
Proof.
  induction a as [|x a IH]; [reflexivity|].
  change (String x ((a +:+ b) +:+ c) = String x (a +:+ b +:+ c)).
  now rewrite IH.
Qed.

Lemma worker_name_eqb_empty i g : String.eqb (worker_name i g) "" = false.
Proof.
  unfold worker_name, fmt.Sprint.
  destruct (fmt.itoa i); reflexivity.
Qed.

Lemma worker_name_Ext i g :
  filepath.Ext (worker_name i g) = filepath.Ext (outputFilename g).
Proof.
  unfold worker_name, fmt.Sprint. rewrite <- append_assoc.
  apply Ext_plain_prefix. rewrite plain_append, plain_itoa. reflexivity.
Qed.

End Names.

(** ** Running the program *)

Arguments filepath.Ext : simpl never.
Arguments fmt.Sprint : simpl never.
Arguments strings.ToLower : simpl never.
Arguments worker_name : simpl never.
Arguments EncodeOptions_at : simpl never.
Arguments resize_options : simpl never.

Ltac unfold_fn :=
  unfold invoke, call, when, printf, client_Get, ioutil_ReadAll,
    ioutil_ReadFile, lilliput_NewDecoder, decoder_Header, ops_Transform,
    os_Stat, ioutil_WriteFile, bind, pure, return_, emit, defer, read_vars,
    update_vars.

Section Runs.

Variable env : Env.

Lemma call_readRemoteURL g url :
  exists t r,
    Fetched env url t r /\ call (readRemoteURL env url) g = (t, g, r).
Proof.
  unfold readRemoteURL. unfold_fn. simpl.
  destruct (Get env url) as [resp|err|resp err] eqn:EG; simpl.
  - destruct (http.Body resp) eqn:EB; simpl;
      eexists _, _; (split; [|reflexivity]); rewrite <- EB;
      now apply fetched_response.
  - eexists _, _. split; [|reflexivity]. now apply fetched_no_response.
  - eexists _, _. split; [|reflexivity].
    now apply fetched_error_with_response.
Qed.

Lemma run_fetch_Fetched g url :
  Fetched env url (run_fetch env g url).1 (run_fetch env g url).2.
Proof.
  unfold run_fetch.
  destruct (call_readRemoteURL g url) as (t & r & HF & ->). exact HF.
Qed.

Lemma resize_input_Acquired g ds :
  exists t o,
    Acquired env g t o /\
    resize_input env g {| vars := g; deferred := ds |} =
      (t, {| vars := g; deferred := ds |},
       match o with Some buf => Next buf | None => Return tt end).
Proof.
  unfold resize_input.
  destruct (String.eqb (inputFilename g) "") eqn:Ein; simpl.
  - apply String.eqb_eq in Ein.
    destruct (String.eqb (remoteInput g) "") eqn:Erem; simpl.
    + apply String.eqb_eq in Erem.
      exists [], (Some []). split; [now apply acquired_nothing|reflexivity].
    + apply String.eqb_neq in Erem.
      destruct (call_readRemoteURL g (remoteInput g)) as (t & r & HF & Hcall).
      unfold bind, invoke. simpl. rewrite Hcall.
      destruct r as [buf|err]; unfold_fn; simpl.
      * exists t, (Some buf). rewrite app_nil_r.
        split; [now apply acquired_remote|reflexivity].
      * exists (t ++ [EvPrintf (MsgReadRemoteFailed err)]), None.
        split; [now apply acquired_remote_error|reflexivity].
  - apply String.eqb_neq in Ein. unfold_fn. simpl.
    destruct (ReadFile env (inputFilename g)) as [buf|err] eqn:ER; simpl.
    + exists [EvReadFile (inputFilename g) (Ok buf)], (Some buf).
      split; [now apply acquired_file|reflexivity].
    + exists [EvReadFile (inputFilename g) (Err err);
              EvPrintf (MsgReadInputFailed err)], None.
      split; [now apply acquired_file_error|reflexivity].
Qed.

Lemma set_outputWidth_same g : set_outputWidth (outputWidth g) g = g.
Proof. now destruct g. Qed.

Lemma set_outputHeight_same g : set_outputHeight (outputHeight g) g = g.
Proof. now destruct g. Qed.

Lemma resize_image_Processed g i buf ds :
  exists t ds' g' o,
    Processed env g i buf t ds' g' /\
    resize_image env (worker_name i g) buf {| vars := g; deferred := ds |} =
      (t, {| vars := g'; deferred := ds' ++ ds |}, o).
Proof.
  unfold resize_image. rewrite worker_name_eqb_empty.
  change (50 * 1024 * 1024) with outputImg_len. unfold_fn. simpl.
  destruct (NewDecoder env buf) as [d|err] eqn:ED; simpl.
  2:{ eexists _, [], g, _. split; [|reflexivity].
      now apply processed_unrecognized. }
  destruct (lilliput.Header d) as [h|err] eqn:EH; simpl.
  2:{ eexists _, [EvDecoderClose], g, _. split; [|reflexivity].
      now apply processed_bad_header. }
  destruct (Z.eqb (lilliput.Duration d) 0) eqn:Edur; simpl;
    destruct (Z.eqb (outputWidth g) 0) eqn:EW; simpl;
    destruct (Z.eqb (outputHeight g) 0) eqn:EHt; simpl.
  all: match goal with
       | |- context [resize_options env ?X ?ty] =>
           assert (HX : X = resolved g h)
             by (unfold resolved, resolved_width, resolved_height;
                 rewrite EW, EHt; now destruct g);
           assert (HO : resize_options env X ty = target_options env g i h)
             by (unfold target_options; now rewrite <- HX);
           rewrite HO
       end.
  all: destruct (Transform env d (target_options env g i h) outputImg_len)
         as [out|err] eqn:ET; simpl;
       [ destruct (os.IsNotExist (Stat env (worker_name i g))) eqn:ES; simpl;
         [ destruct (WriteFile env (worker_name i g) out 256)
             as [err|] eqn:EWr; simpl | ] | ].
  all: eexists _, [EvOpsClose; EvDecoderClose], (resolved g h), _.
  all: (split;
        [ first [ eapply processed_written; eassumption
                | eapply processed_write_error; eassumption
                | eapply processed_output_exists; eassumption
                | eapply processed_transform_error; eassumption ]
        | unfold prologue, duration_note; rewrite Edur, <- HX; reflexivity ]).
Qed.

Lemma run_resize_Ran g i : Ran env g i (trace_of env g i) (run_resize env g i).2.
Proof.
  unfold trace_of, run_resize, call, resize.
  unfold_fn. simpl.
  destruct (String.eqb (inputFilename g) "" && String.eqb (remoteInput g) "")%bool
    eqn:Eno; simpl.
  - apply andb_prop in Eno as [Hin Hrem].
    apply String.eqb_eq in Hin, Hrem.
    now apply ran_usage.
  - assert (Hsome : ~ (inputFilename g = "" /\ remoteInput g = "")).
    { intros [Hin Hrem]. rewrite Hin, Hrem in Eno. discriminate. }
    destruct (resize_input_Acquired g [EvWgDone]) as (tA & o & HA & ->).
    destruct o as [buf|]; simpl.
    + destruct (resize_image_Processed g i buf [EvWgDone])
        as (tB & ds & g' & o & HP & ->). simpl.
      rewrite <- (app_assoc tA tB).
      destruct o; simpl; eapply ran_image; eassumption.
    + now apply ran_no_input.
Qed.

End Runs.

(** ** Reading facts off the exits *)

(** The run of [resize i] from [g], as a [Ran] fact about a trace [t]. *)
Ltac run_of env g i :=
  let H := fresh "Hrun" in
  let t := fresh "t" in
  let g' := fresh "g'" in
  pose proof (run_resize_Ran env g i) as H;
  remember (trace_of env g i) as t eqn:Ht; clear Ht;
  remember (run_resize env g i).2 as g' eqn:Hg'; clear Hg'.

(** Every exit of a run, one goal each. *)
Ltac invert_paths :=
  repeat match goal with
         | H : Ran _ _ _ _ _ |- _ => inversion H; subst; clear H
         | H : Acquired _ _ _ _ |- _ => inversion H; subst; clear H
         | H : Fetched _ _ _ _ |- _ => inversion H; subst; clear H
         | H : Processed _ _ _ _ _ _ _ |- _ => inversion H; subst; clear H
         | H : ~ (?a = "" /\ ?b = ""), H1 : ?a = "", H2 : ?b = "" |- _ =>
             exfalso; apply H; split; assumption
         end.

Ltac invert_exits :=
  invert_paths;
  repeat match goal with
         | H : http.Body _ = _ |- _ => rewrite H in *; clear H
         end.

(** Spell the trace out, entry by entry. *)
Ltac show_trace :=
  unfold prologue, duration_note;
  repeat match goal with
         | |- context [Z.eqb (lilliput.Duration ?d) 0] =>
             destruct (Z.eqb (lilliput.Duration d) 0)
         end;
  simpl.

(** Membership in an explicit trace, settled entry by entry. *)
Ltac in_trace :=
  repeat match goal with
         | H : In _ (_ ++ _) |- _ => apply in_app_or in H as [H|H]
         | H : In _ (_ :: _) |- _ => destruct H as [H|H]
         | H : In _ [] |- _ => destruct H
         | H : _ \/ _ |- _ => destruct H as [H|H]
         | H : False |- _ => destruct H
         | H : @eq Event _ _ |- _ =>
             first [discriminate H | injection H as ?; subst]
         end.

(** A trace holds an entry: find it. *)
Ltac here := simpl; repeat (first [left; reflexivity | right]).

Ltac computed_here := vm_compute; repeat (first [left; reflexivity | right]).

(** Cut an explicit trace after some entries: tries every length up to the
    fuel for the front part [pre], and lets [tac] settle the rest. *)
Ltac cut_trace tac pre fuel :=
  lazymatch fuel with
  | O => fail "no cut found"
  | S ?f =>
      first [ refine (ex_intro _ pre _); tac
            | let pre' := open_constr:(@cons Event _ pre) in
              cut_trace tac pre' f ]
  end.

Lemma stops_at_failure_split t :
  stops_at_failure t = true ->
  forall pre e post, t = pre ++ e :: post -> failed e = true ->
    forallb (fun e' => negb (is_work e')) post = true.
Proof.
  intros Ht pre. revert t Ht.
  induction pre as [|x pre IH]; intros t Ht e post -> Hf; simpl in Ht.
  - rewrite Hf in Ht. now apply andb_prop in Ht as [? _].
  - apply andb_prop in Ht as [_ Ht]. eauto.
Qed.

Lemma resize_stops_at_failure env g i :
  stops_at_failure (trace_of env g i) = true.
Proof.
  run_of env g i. invert_exits; show_trace; reflexivity.
Qed.

(** ** The usage error *)

(** C4: with neither an input file name nor a remote URL the worker prints
    the usage message and returns.  The whole trace is the message, the usage
    text and the deferred [wg.Done()]: no file is read and no request is
    sent, and the package variables are untouched. *)
Theorem resize_without_input_is_usage_error env g i :
  inputFilename g = "" -> remoteInput g = "" ->
  run_resize env g i = ([EvPrintf MsgNoInput; EvUsage; EvWgDone], g) /\
  forallb (fun e => negb (is_work e)) (trace_of env g i) = true.
Proof.
  intros Hin Hrem.
  assert (Hrun : run_resize env g i = ([EvPrintf MsgNoInput; EvUsage; EvWgDone], g)).
  { unfold run_resize, call, resize. unfold_fn. simpl.
    now rewrite Hin, Hrem. }
  split; [exact Hrun|]. unfold trace_of. now rewrite Hrun.
Qed.

Lemma resize_without_input_witness :
  run_resize Sample.env Sample.empty_request 0 =
    ([EvPrintf MsgNoInput; EvUsage; EvWgDone], Sample.empty_request).
Proof.
  apply (resize_without_input_is_usage_error Sample.env Sample.empty_request 0);
    reflexivity.
Defined.

(** ** Which input is read *)

(** C9: when both a file name and a URL are given, the worker reads the
    file: the trace starts with that read, holds no request and no usage
    error, and when the read succeeds its bytes, and no others, go to the
    format detector. *)
Theorem resize_prefers_local_input env g i :
  inputFilename g <> "" -> remoteInput g <> "" ->
  (exists rest,
     trace_of env g i =
       EvReadFile (inputFilename g) (ReadFile env (inputFilename g)) :: rest) /\
  (forall url r, ~ In (EvGet url r) (trace_of env g i)) /\
  ~ In EvUsage (trace_of env g i) /\
  (forall buf, ReadFile env (inputFilename g) = Ok buf ->
     In (EvNewDecoder buf (NewDecoder env buf)) (trace_of env g i) /\
     forall b r, In (EvNewDecoder b r) (trace_of env g i) -> b = buf).
Proof.
  intros Hin Hrem. run_of env g i.
  refine (conj _ (conj _ (conj _ _))).
  - invert_exits; try congruence;
      match goal with H : ReadFile _ _ = _ |- _ => rewrite H end;
      eexists; reflexivity.
  - intros url r Hi. invert_exits; try congruence; revert Hi; show_trace;
      intros Hi; in_trace.
  - intros Hi. invert_exits; try congruence; revert Hi; show_trace;
      intros Hi; in_trace.
  - intros buf0 Hbuf. invert_exits; try congruence.
    all: assert (buf0 = buf) as -> by congruence.
    all: split; [|show_trace; intros b r Hi; in_trace; reflexivity].
    all: match goal with H : NewDecoder _ _ = _ |- _ => rewrite H end.
    all: show_trace; here.
Qed.

Lemma resize_prefers_local_input_witness :
  ~ In EvUsage (trace_of Sample.env Sample.both_request 2) /\
  forall url r, ~ In (EvGet url r) (trace_of Sample.env Sample.both_request 2).
Proof.
  destruct (resize_prefers_local_input Sample.env Sample.both_request 2)
    as (_ & Hget & Husage & _); [discriminate | discriminate |].
  split; assumption.
Defined.

(** ** Target geometry *)

Lemma target_options_size env g i h :
  lilliput.ImageOptions.Width (target_options env g i h) = resolved_width g h /\
  lilliput.ImageOptions.Height (target_options env g i h) = resolved_height g h.
Proof. split; reflexivity. Qed.

(** C3: whenever the source header has been read, the transform is called,
    and the width and height it is given are the requested ones with each 0
    replaced, independently of the other, by the header's dimension; a
    request of 0x0 gives the source geometry itself. *)
Theorem resize_zero_dimensions_default_to_source env g i header :
  In (EvHeader (Ok header)) (trace_of env g i) ->
  (exists opts n r, In (EvTransform opts n r) (trace_of env g i)) /\
  (forall opts n r, In (EvTransform opts n r) (trace_of env g i) ->
     lilliput.ImageOptions.Width opts =
       (if Z.eqb (outputWidth g) 0 then lilliput.Width header
        else outputWidth g) /\
     lilliput.ImageOptions.Height opts =
       (if Z.eqb (outputHeight g) 0 then lilliput.Height header
        else outputHeight g) /\
     (outputWidth g = 0 -> outputHeight g = 0 ->
      lilliput.ImageOptions.Width opts = lilliput.Width header /\
      lilliput.ImageOptions.Height opts = lilliput.Height header)).
Proof.
  run_of env g i. intros Hh.
  assert (Hcase : exists h,
    h = header /\
    (exists r, In (EvTransform (target_options env g i h) outputImg_len r) t) /\
    forall opts n r, In (EvTransform opts n r) t ->
      opts = target_options env g i h).
  { invert_exits; revert Hh; show_trace; intros Hh; in_trace.
    all: eexists; split; [reflexivity|]; split;
      [ eexists; here | intros opts n r Hi; in_trace; reflexivity ]. }
  destruct Hcase as (h & -> & [r Hr] & Hopts). split; [eauto|].
  intros opts n r' Hi. rewrite (Hopts _ _ _ Hi).
  destruct (target_options_size env g i header) as [-> ->].
  unfold resolved_width, resolved_height.
  split; [reflexivity|]. split; [reflexivity|].
  intros Hw0 Hh0. rewrite Hw0, Hh0. split; reflexivity.
Qed.

Lemma resize_zero_dimensions_witness :
  In (EvHeader (Ok Sample.header))
     (trace_of Sample.env Sample.local_request 0) /\
  exists opts n r,
    In (EvTransform opts n r) (trace_of Sample.env Sample.local_request 0).
Proof.
  assert (Hh : In (EvHeader (Ok Sample.header))
                  (trace_of Sample.env Sample.local_request 0))
    by computed_here.
  split; [exact Hh|].
  exact (proj1 (resize_zero_dimensions_default_to_source
                  Sample.env Sample.local_request 0 Sample.header Hh)).
Defined.

(** ** The encode options *)

(** C8: the table has exactly the three entries [.jpeg], [.png] and
    [.webp]; looking up any other extension gives the empty option set.  The
    lookup is a total function: there is no failure to report. *)
Theorem EncodeOptions_table env :
  EncodeOptions_at env ".jpeg" = {[ JpegQuality env := 85 ]} /\
  EncodeOptions_at env ".png" = {[ PngCompression env := 7 ]} /\
  EncodeOptions_at env ".webp" = {[ WebpQuality env := 85 ]} /\
  (forall ext, ext <> ".jpeg" -> ext <> ".png" -> ext <> ".webp" ->
     EncodeOptions_at env ext = ∅) /\
  (forall g i opts n r, In (EvTransform opts n r) (trace_of env g i) ->
     lilliput.ImageOptions.EncodeOptions opts =
       EncodeOptions_at env (lilliput.ImageOptions.FileType opts)).
Proof.
  split; [reflexivity|]. split; [reflexivity|]. split; [reflexivity|].
  split.
  - intros ext Hj Hp Hw. unfold EncodeOptions_at, EncodeOptions.
    rewrite !lookup_insert_ne by congruence. now rewrite lookup_empty.
  - intros g i opts n r Hi. run_of env g i.
    invert_exits; revert Hi; show_trace; intros Hi; in_trace; reflexivity.
Qed.

(** ** The output name *)

Lemma to_int_proper z :
  Z.to_int z <> Decimal.Pos Decimal.Nil /\ Z.to_int z <> Decimal.Neg Decimal.Nil.
Proof.
  destruct z as [|p|p]; simpl; split; try discriminate;
    intros [= Hp]; now apply DecimalPos.Unsigned.to_uint_nonnil in Hp.
Qed.

(** The digits [itoa] prints read back as the number. *)
Lemma itoa_parses i :
  option_map Z.of_int (NilZero.int_of_string (fmt.itoa i)) = Some i.
Proof.
  unfold fmt.itoa.
  rewrite NilZero.isi by apply to_int_proper.
  simpl. now rewrite DecimalZ.of_to.
Qed.

Lemma append_cancel_r a b s : a +:+ s = b +:+ s -> a = b.
Proof.
  revert b. induction a as [|x a IH]; intros [|y b] H.
  - reflexivity.
  - apply (f_equal String.length) in H.
    rewrite !length_append in H. simpl in H. lia.
  - apply (f_equal String.length) in H.
    rewrite !length_append in H. simpl in H. lia.
  - change (String x (a +:+ s) = String y (b +:+ s)) in H.
    injection H as -> H. f_equal. now apply IH.
Qed.

Lemma itoa_inj i j : fmt.itoa i = fmt.itoa j -> i = j.
Proof.
  unfold fmt.itoa. intros H.
  assert (Hnn : forall z, Z.to_int z <> Decimal.Pos Decimal.Nil /\
                          Z.to_int z <> Decimal.Neg Decimal.Nil).
  { intros [|p|p]; simpl; split; try discriminate;
      intros [= Hp]; now apply DecimalPos.Unsigned.to_uint_nonnil in Hp. }
  apply DecimalZ.to_int_inj.
  assert (Hs : Some (Z.to_int i) = Some (Z.to_int j)).
  { rewrite <- (NilZero.isi (Z.to_int i)), <- (NilZero.isi (Z.to_int j))
      by apply Hnn.
    now rewrite H. }
  now injection Hs.
Qed.

Lemma worker_name_inj g i j : worker_name i g = worker_name j g -> i = j.
Proof.
  unfold worker_name, fmt.Sprint. intros H.
  apply append_cancel_r in H. now apply itoa_inj.
Qed.

Lemma itoa_head i :
  exists c rest, fmt.itoa i = String c rest /\ c <> "r"%char.
Proof.
  unfold fmt.itoa, NilZero.string_of_int, NilZero.string_of_uint.
  destruct (Z.to_int i) as [d|d]; destruct d; simpl;
    eexists _, _; (split; [reflexivity|discriminate]).
Qed.

Lemma worker_name_not_default i g ext :
  worker_name i g <> "resized" +:+ ext.
Proof.
  unfold worker_name, fmt.Sprint.
  destruct (itoa_head i) as (c & rest & -> & Hc).
  change ("resized" +:+ ext) with (String "r" ("esized" +:+ ext)).
  change (String c rest +:+ "-" +:+ outputFilename g)
    with (String c (rest +:+ "-" +:+ outputFilename g)).
  congruence.
Qed.

(** C10: the name the worker checks and writes is [i] in decimal, a dash
    and the caller's output name: "0-" and "12-" before the output name for
    the workers 0 and 12, and in general digits that read back as [i], so
    that the name tells the worker.  It is never empty, so the test that
    guards the default name comes out false in every invocation, and the
    name is never the default one ("resized" and the input's extension). *)
Theorem resize_writes_to_worker_name env g i :
  worker_name i g = fmt.itoa i +:+ "-" +:+ outputFilename g /\
  (exists digits,
     worker_name i g = digits +:+ "-" +:+ outputFilename g /\
     option_map Z.of_int (NilZero.int_of_string digits) = Some i) /\
  (forall j, worker_name j g = worker_name i g -> j = i) /\
  worker_name 0 g = "0-" +:+ outputFilename g /\
  worker_name 12 g = "12-" +:+ outputFilename g /\
  worker_name i g <> "" /\
  String.eqb (worker_name i g) "" = false /\
  worker_name i g <> "resized" +:+ filepath.Ext (inputFilename g) /\
  (forall name err, In (EvStat name err) (trace_of env g i) ->
     name = worker_name i g) /\
  (forall name data perm err,
     In (EvWriteFile name data perm err) (trace_of env g i) ->
     name = worker_name i g).
Proof.
  split; [reflexivity|].
  split; [exists (fmt.itoa i); split; [reflexivity|apply itoa_parses]|].
  split; [intros j Hj; now apply (worker_name_inj g)|].
  split; [reflexivity|]. split; [reflexivity|].
  split; [apply String.eqb_neq, worker_name_eqb_empty|].
  split; [apply worker_name_eqb_empty|].
  split; [apply worker_name_not_default|].
  run_of env g i.
  split; intros; invert_exits;
    match goal with H : In _ _ |- _ => revert H end;
    show_trace; intros Hi; in_trace; reflexivity.
Qed.

(** ** The output type *)

(** C2, as the program behaves: the type handed to the transform is the
    extension of the worker's name, which is the extension of the caller's
    output name; the decoder's description plays no part.  With no output
    name the type is therefore the empty string, and never the dot and
    lowercased description the comment at lines 113-114 announces. *)
Theorem resize_output_type_ignores_description env g i opts n r :
  In (EvTransform opts n r) (trace_of env g i) ->
  lilliput.ImageOptions.FileType opts = filepath.Ext (outputFilename g) /\
  (outputFilename g = "" ->
   lilliput.ImageOptions.FileType opts = "" /\
   forall d, lilliput.ImageOptions.FileType opts <>
             "." +:+ strings.ToLower (lilliput.Description d)).
Proof.
  intros Hi. run_of env g i.
  assert (Hty : lilliput.ImageOptions.FileType opts =
                filepath.Ext (worker_name i g)).
  { invert_exits; revert Hi; show_trace; intros Hi; in_trace; reflexivity. }
  rewrite worker_name_Ext in Hty. split; [exact Hty|].
  intros Hout. rewrite Hout in Hty. change (filepath.Ext "") with "" in Hty.
  split; [exact Hty|]. intros d. rewrite Hty.
  change ("." +:+ strings.ToLower (lilliput.Description d))
    with (String "." (strings.ToLower (lilliput.Description d))).
  discriminate.
Qed.

Lemma resize_output_type_witness :
  let opts := target_options Sample.env Sample.local_request 0 Sample.header in
  In (EvTransform opts outputImg_len (Ok Sample.out_bytes))
     (trace_of Sample.env Sample.local_request 0) /\
  lilliput.ImageOptions.FileType opts = "" /\
  lilliput.ImageOptions.FileType opts <> ".jpeg".
Proof.
  intros opts.
  assert (Hi : In (EvTransform opts outputImg_len (Ok Sample.out_bytes))
                  (trace_of Sample.env Sample.local_request 0))
    by computed_here.
  split; [exact Hi|].
  destruct (resize_output_type_ignores_description
              Sample.env Sample.local_request 0 _ _ _ Hi) as [_ Hno].
  destruct (Hno eq_refl) as [Hty Hne].
  split; [exact Hty | exact (Hne Sample.jpeg)].
Defined.

(** ** The steps of an invocation *)

(** C5: the calls that start the five steps appear in the order acquire,
    detect, read header, transform, write, each at most once and none
    skipped; after a call of a step that failed, the rest of the trace only
    prints and releases; and a file is written only after a transform that
    returned, without error, the very bytes that are written. *)
Theorem resize_steps_in_order env g i :
  steps (trace_of env g i) `prefix_of` pipeline /\
  (forall pre e post,
     trace_of env g i = pre ++ e :: post -> failed e = true ->
     forallb (fun e' => negb (is_work e')) post = true) /\
  (forall name data perm err,
     In (EvWriteFile name data perm err) (trace_of env g i) ->
     exists opts n pre post,
       trace_of env g i = pre ++ EvTransform opts n (Ok data) :: post /\
       In (EvWriteFile name data perm err) post).
Proof.
  split; [|split].
  - run_of env g i. invert_exits; show_trace; eexists; reflexivity.
  - apply stops_at_failure_split, resize_stops_at_failure.
  - intros name data perm err Hi. run_of env g i.
    invert_exits; revert Hi; show_trace; intros Hi; in_trace.
    all: eexists _, _.
    all: cut_trace ltac:(eexists; split; [reflexivity|here])
           (@nil Event) 12%nat.
Qed.

(** ** Releasing the decoder *)

(** C6, as the program behaves: once a decoder has been created, every exit
    of the invocation closes it, exactly once, as the last action but one of
    the invocation, just before the deferred [wg.Done()].  Everything else,
    the write of the output file included, comes before the close. *)
Theorem decoder_closed_when_resize_returns env g i buf d :
  In (EvNewDecoder buf (Ok d)) (trace_of env g i) ->
  exists pre,
    trace_of env g i = pre ++ [EvDecoderClose; EvWgDone] /\
    ~ In EvDecoderClose pre /\
    In (EvNewDecoder buf (Ok d)) pre /\
    (forall name data perm err,
       In (EvWriteFile name data perm err) (trace_of env g i) ->
       In (EvWriteFile name data perm err) pre).
Proof.
  intros Hi. run_of env g i.
  invert_exits; revert Hi; show_trace; intros Hi; in_trace.
  all: cut_trace
         ltac:(split; [reflexivity|]; split; [intros Hc; in_trace|];
               split; [here|]; intros name data perm err' Hw; in_trace; here)
         (@nil Event) 16%nat.
Qed.

(** C6 as written fails on the normal path: in the run below the output
    file is written while the decoder is still open; the close comes
    later. *)
Lemma decoder_open_when_output_is_written :
  exists pre post,
    trace_of Sample.env Sample.local_request 0 =
      pre ++ EvWriteFile "0-" Sample.out_bytes 256 None :: post /\
    In (EvNewDecoder Sample.file_bytes (Ok Sample.jpeg)) pre /\
    ~ In EvDecoderClose pre /\
    In EvDecoderClose post.
Proof.
  exists (firstn 8 (trace_of Sample.env Sample.local_request 0)),
         (skipn 9 (trace_of Sample.env Sample.local_request 0)).
  split; [vm_compute; reflexivity|].
  split; [computed_here|].
  split; [|computed_here].
  vm_compute. intros Hc. in_trace.
Qed.

Lemma decoder_closed_witness :
  exists pre,
    trace_of Sample.env Sample.local_request 0 =
      pre ++ [EvDecoderClose; EvWgDone] /\
    ~ In EvDecoderClose pre.
Proof.
  assert (Hi : In (EvNewDecoder Sample.file_bytes (Ok Sample.jpeg))
                  (trace_of Sample.env Sample.local_request 0))
    by computed_here.
  destruct (decoder_closed_when_resize_returns
              Sample.env Sample.local_request 0 _ _ Hi)
    as (pre & Ht & Hno & _).
  exists pre. split; assumption.
Defined.

(** ** The remote fetch *)

(** C7, as the program behaves: on every exit of the fetch on which a
    response exists [readRemoteURL] calls [resp.Body.Close()], exactly once,
    as its last action.  It reads the body only when the client reported no
    error, and then the result of the fetch is the result of that read; when
    an error came with the response it reads nothing.  So the body ends up
    fully drained exactly when the fetch succeeds, or when nothing of it was
    left unread as [client.Get] returned. *)
Theorem readRemoteURL_closes_body env g url resp :
  http.resp_of (Get env url) = Some resp ->
  (exists pre, (run_fetch env g url).1 = pre ++ [EvBodyClose] /\
               ~ In EvBodyClose pre) /\
  (http.err_of (Get env url) = None ->
     In (EvReadAll (http.Body resp)) (run_fetch env g url).1 /\
     (run_fetch env g url).2 = http.Body resp) /\
  (forall err, http.err_of (Get env url) = Some err ->
     (forall r, ~ In (EvReadAll r) (run_fetch env g url).1) /\
     (run_fetch env g url).2 = Err err) /\
  (body_drained (Get env url) (run_fetch env g url).1 <->
   (http.err_of (Get env url) = None /\ exists b, http.Body resp = Ok b) \/
   http.Body resp = Ok []).
Proof.
  intros Hresp. pose proof (run_fetch_Fetched env g url) as HF.
  unfold body_drained.
  destruct (run_fetch env g url) as [t r]. simpl in *.
  inversion HF as [err HG|resp' err HG|resp' HG]; subst;
    rewrite HG in Hresp; simpl in Hresp; [discriminate| |];
    injection Hresp as ->; rewrite HG; simpl.
  - split; [exists [EvGet url (http.GetErrResp resp err)];
            split; [reflexivity|intros Hc; in_trace]|].
    split; [discriminate|].
    split; [intros err' [= <-];
            split; [intros r Hc; in_trace|reflexivity]|].
    split.
    + intros (resp' & [= <-] & [[b Hb]|Hb]); [in_trace|now right].
    + intros [[Hnone _]|Hb]; [discriminate|].
      exists resp. split; [reflexivity|now right].
  - split; [exists [EvGet url (http.GetOk resp); EvReadAll (http.Body resp)];
            split; [reflexivity|intros Hc; in_trace]|].
    split; [intros _; split; [here|reflexivity]|].
    split; [discriminate|].
    split.
    + intros (resp' & [= <-] & [[b Hb]|Hb]); [|now right].
      left. split; [reflexivity|]. exists b.
      destruct Hb as [Hb|[Hb|[Hb|[]]]]; try discriminate.
      now injection Hb.
    + intros [[_ [b Hb]]|Hb]; exists resp; (split; [reflexivity|]).
      * left. exists b. rewrite Hb. here.
      * now right.
Qed.

(** C7 as written fails when the client gives up on a redirect whose page
    is longer than what it discards: the client hands back the 302 with its
    error, the 3000 bytes of the page still unread; [readRemoteURL] calls
    [Close] and returns without reading them, so the body is closed but not
    drained. *)
Lemma redirect_error_body_closed_unread :
  Get Sample.redirect_env "http://host/missing.jpg" =
    http.GetErrResp Sample.redirect_page
      (ErrOther "stopped after 10 redirects") /\
  http.StatusCode Sample.redirect_page = 302 /\
  (exists rest,
     http.Body Sample.redirect_page = Ok rest /\ length rest = 3000%nat) /\
  (run_fetch Sample.redirect_env Sample.remote_request
     "http://host/missing.jpg").1 =
    [EvGet "http://host/missing.jpg"
       (http.GetErrResp Sample.redirect_page
          (ErrOther "stopped after 10 redirects"));
     EvBodyClose] /\
  ~ body_drained
      (Get Sample.redirect_env "http://host/missing.jpg")
      (run_fetch Sample.redirect_env Sample.remote_request
         "http://host/missing.jpg").1.
Proof.
  split; [reflexivity|]. split; [reflexivity|].
  split; [eexists; split; [reflexivity|apply repeat_length]|].
  split; [reflexivity|].
  intros (resp & Hresp & [[b Hb]|Hb]).
  - change (In (EvReadAll (Ok b))
              [EvGet "http://host/missing.jpg"
                 (http.GetErrResp Sample.redirect_page
                    (ErrOther "stopped after 10 redirects"));
               EvBodyClose]) in Hb.
    in_trace.
  - change (Some Sample.redirect_page = Some resp) in Hresp.
    injection Hresp as <-.
    apply (f_equal (fun r => match r with
                             | Ok l => List.length l
                             | Err _ => O
                             end)) in Hb.
    change (List.length (List.repeat Byte.x2e 3000) = O) in Hb.
    rewrite (repeat_length Byte.x2e 3000) in Hb. discriminate Hb.
Qed.

Lemma readRemoteURL_closes_body_witness :
  In (EvReadAll (Ok Sample.page_bytes))
     (run_fetch Sample.env Sample.remote_request "http://host/missing.jpg").1 /\
  (run_fetch Sample.env Sample.remote_request "http://host/missing.jpg").2 =
    Ok Sample.page_bytes.
Proof.
  exact (proj1 (proj2
    (readRemoteURL_closes_body Sample.env Sample.remote_request
       "http://host/missing.jpg" Sample.not_found eq_refl)) eq_refl).
Defined.

(** What [readRemoteURL] returns, read off the answer of the client: the
    status code of the response is not looked at. *)
Lemma run_fetch_result env g url :
  (run_fetch env g url).2 =
    match Get env url with
    | http.GetOk resp => http.Body resp
    | http.GetErr err | http.GetErrResp _ err => Err err
    end.
Proof.
  pose proof (run_fetch_Fetched env g url) as HF.
  destruct (run_fetch env g url) as [t r]. simpl in *.
  inversion HF as [err HG|resp err HG|resp HG]; subst; now rewrite HG.
Qed.

(** C1, as the program behaves: the fetch fails exactly when the client
    reports an error or the body cannot be read to its end, and then the
    worker prints the failure and stops before detection.  A response with
    any status code, 404 included, whose body can be read is a success: its
    bytes are what the format detector is given. *)
Theorem remote_fetch_fails_on_client_or_read_error env g i :
  inputFilename g = "" -> remoteInput g <> "" ->
  (run_fetch env g (remoteInput g)).2 =
    match Get env (remoteInput g) with
    | http.GetOk resp => http.Body resp
    | http.GetErr err | http.GetErrResp _ err => Err err
    end /\
  (forall err, (run_fetch env g (remoteInput g)).2 = Err err ->
     In (EvPrintf (MsgReadRemoteFailed err)) (trace_of env g i) /\
     ~ detection_ran (trace_of env g i)) /\
  (forall body, (run_fetch env g (remoteInput g)).2 = Ok body ->
     In (EvNewDecoder body (NewDecoder env body)) (trace_of env g i)).
Proof.
  intros Hin Hrem. split; [apply run_fetch_result|].
  rewrite run_fetch_result. run_of env g i.
  split.
  - intros err Herr. invert_paths; try congruence.
    all: match goal with
         | H : Get _ _ = _ |- _ => rewrite H in Herr; simpl in Herr
         end; try congruence.
    all: match goal with
         | |- context [MsgReadRemoteFailed ?e] =>
             assert (e = err) as -> by congruence
         end.
    all: split; [here|]; intros (b & r & Hd); in_trace.
  - intros body Hbody. invert_paths; try congruence.
    all: match goal with
         | H : Get _ _ = _ |- _ => rewrite H in Hbody; simpl in Hbody
         end; try congruence.
    all: assert (buf = body) as -> by congruence.
    all: match goal with H : NewDecoder _ _ = _ |- _ => rewrite H end.
    all: show_trace; here.
Qed.

(** C1 as written fails for a 404: the client reports no error, the fetch
    returns the page's bytes, and they are handed to the format detector. *)
Lemma remote_404_reaches_detection :
  Get Sample.env (remoteInput Sample.remote_request) =
    http.GetOk Sample.not_found /\
  is_success_status (http.StatusCode Sample.not_found) = false /\
  (run_fetch Sample.env Sample.remote_request
     (remoteInput Sample.remote_request)).2 = Ok Sample.page_bytes /\
  In (EvNewDecoder Sample.page_bytes (Ok Sample.jpeg))
     (trace_of Sample.env Sample.remote_request 0) /\
  detection_ran (trace_of Sample.env Sample.remote_request 0).
Proof.
  split; [reflexivity|]. split; [reflexivity|]. split; [reflexivity|].
  assert (Hi : In (EvNewDecoder Sample.page_bytes (Ok Sample.jpeg))
                  (trace_of Sample.env Sample.remote_request 0))
    by computed_here.
  split; [exact Hi|]. now exists Sample.page_bytes, (Ok Sample.jpeg).
Qed.

Lemma remote_fetch_witness :
  In (EvNewDecoder Sample.page_bytes
        (NewDecoder Sample.env Sample.page_bytes))
     (trace_of Sample.env Sample.remote_request 0).
Proof.
  assert (Hrem : remoteInput Sample.remote_request <> "") by discriminate.
  exact (proj2 (proj2
    (remote_fetch_fails_on_client_or_read_error
       Sample.env Sample.remote_request 0 eq_refl Hrem))
    Sample.page_bytes eq_refl).
Defined.

(** ** [main] and its workers *)

Lemma main_loop_fuel fuel i n :
  (Z.to_nat (n - i) <= fuel)%nat ->
  main_loop fuel i n =
    flat_map (fun k => [MainWgAdd 1; MainGo k])
             (map (fun k => i + Z.of_nat k) (seq 0 (Z.to_nat (n - i)))).
Proof.
  revert i. induction fuel as [|fuel IH]; intros i Hfuel; simpl.
  - replace (Z.to_nat (n - i)) with O by lia. reflexivity.
  - destruct (Z.ltb_spec i n) as [Hlt|Hge].
    + replace (Z.to_nat (n - i)) with (S (Z.to_nat (n - (i + 1)))) by lia.
      simpl. rewrite Z.add_0_r. do 2 f_equal.
      rewrite IH by lia. f_equal.
      rewrite <- seq_shift, map_map.
      apply map_ext. intros k. lia.
    + replace (Z.to_nat (n - i)) with O by lia. reflexivity.
Qed.

Lemma spawned_flat_map l :
  spawned (flat_map (fun k => [MainWgAdd 1; MainGo k]) l ++ [MainWgWait]) = l.
Proof. induction l as [|k l IH]; simpl; congruence. Qed.

Lemma added_flat_map l :
  added (flat_map (fun k => [MainWgAdd 1; MainGo k]) l ++ [MainWgWait]) =
    Z.of_nat (length l).
Proof. induction l as [|k l IH]; simpl length; simpl added; lia. Qed.

Lemma main_unfolded g :
  main g =
    flat_map (fun k => [MainWgAdd 1; MainGo k])
             (map Z.of_nat (seq 0 (Z.to_nat (runs g)))) ++ [MainWgWait].
Proof.
  unfold main. rewrite main_loop_fuel by (rewrite Z.sub_0_r; lia).
  rewrite Z.sub_0_r. do 2 f_equal.
Qed.

(** X1: [main] starts the workers 0, 1, ..., runs-1, in that order and each
    once (none when [runs] is not positive), adds one to the wait group
    right before starting each, and waits after the last; the loop ends on
    its own test, whatever the bound on its iterations. *)
Theorem main_starts_each_worker_once g :
  main g =
    flat_map (fun k => [MainWgAdd 1; MainGo k])
             (map Z.of_nat (seq 0 (Z.to_nat (runs g)))) ++ [MainWgWait] /\
  spawned (main g) = map Z.of_nat (seq 0 (Z.to_nat (runs g))) /\
  List.NoDup (spawned (main g)) /\
  (forall i, In i (spawned (main g)) <-> 0 <= i < runs g) /\
  forall fuel, (Z.to_nat (runs g) <= fuel)%nat ->
    main_loop fuel 0 (runs g) = main_loop (Z.to_nat (runs g)) 0 (runs g).
Proof.
  split; [apply main_unfolded|].
  assert (Hsp : spawned (main g) = map Z.of_nat (seq 0 (Z.to_nat (runs g))))
    by (rewrite main_unfolded; apply spawned_flat_map).
  split; [exact Hsp|]. rewrite Hsp. split; [|split].
  - apply Finite.Injective_map_NoDup; [|apply seq_NoDup].
    intros a b Hab. lia.
  - intros i. rewrite in_map_iff. split.
    + intros (k & <- & Hk). apply in_seq in Hk. lia.
    + intros Hi. exists (Z.to_nat i). split; [lia|]. apply in_seq. lia.
  - intros fuel Hfuel.
    rewrite !main_loop_fuel by (rewrite Z.sub_0_r; lia). reflexivity.
Qed.

Lemma count_wg_done env g i : count is_wg_done (trace_of env g i) = 1%nat.
Proof. run_of env g i. invert_exits; show_trace; reflexivity. Qed.

(** X2: every invocation of [resize], whichever way it exits, calls
    [wg.Done()] exactly once, as its very last action. *)
Theorem resize_signals_done_once env g i :
  exists pre,
    trace_of env g i = pre ++ [EvWgDone] /\
    ~ In EvWgDone pre /\
    count is_wg_done (trace_of env g i) = 1%nat.
Proof.
  assert (Hc := count_wg_done env g i). revert Hc.
  run_of env g i. intros Hc.
  invert_exits; revert Hc; show_trace; intros Hc.
  all: cut_trace
         ltac:(split; [reflexivity|]; split; [intros Hd; in_trace|exact Hc])
         (@nil Event) 20%nat.
Qed.

(** X3: the wait group balances: what [main] adds to it is the number of
    [wg.Done()] calls its workers make, whatever values of the package
    variables each worker happens to run from, so [wg.Wait()] is released
    and the counter never goes below zero. *)
Theorem wait_group_balanced env g (seen : Z -> Globals) :
  added (main g) =
    Z.of_nat
      (list_sum
         (map (fun i => count is_wg_done (trace_of env (seen i) i))
              (spawned (main g)))).
Proof.
  rewrite main_unfolded, added_flat_map, spawned_flat_map. f_equal.
  induction (map Z.of_nat (seq 0 (Z.to_nat (runs g)))) as [|k l IH];
    simpl; [reflexivity|].
  now rewrite count_wg_done, IH.
Qed.

(** ** Distinct workers, distinct files *)

Lemma spawned_main g :
  spawned (main g) = map Z.of_nat (seq 0 (Z.to_nat (runs g))).
Proof. rewrite main_unfolded. apply spawned_flat_map. Qed.

(** X4: two workers never use the same output name: the name built at
    line 54 determines the worker's index.  In particular the workers [main]
    starts check and write pairwise distinct files. *)
Theorem worker_names_distinct g :
  (forall i j, i <> j -> worker_name i g <> worker_name j g) /\
  List.NoDup (map (fun i => worker_name i g) (spawned (main g))).
Proof.
  split.
  - intros i j Hij Hname. apply Hij. now apply worker_name_inj in Hname.
  - apply Finite.Injective_map_NoDup.
    + intros i j. apply worker_name_inj.
    + rewrite spawned_main.
      apply Finite.Injective_map_NoDup; [|apply seq_NoDup].
      intros a b Hab. lia.
Qed.

(** ** Writing the output *)


(** X5: an output file is never overwritten.  A worker writes at most once;
    a write goes to the name it has just checked, with mode 0400, and only
    when [os.Stat] reported that nothing exists under that name.  When
    [os.Stat] reports anything else (no error, or another error) the worker
    writes nothing and prints that the output exists. *)
Theorem resize_never_overwrites env g i :
  (count is_write_file (trace_of env g i) <= 1)%nat /\
  (forall name data perm err,
     In (EvWriteFile name data perm err) (trace_of env g i) ->
     perm = 256 /\
     In (EvStat name (Stat env name)) (trace_of env g i) /\
     os.IsNotExist (Stat env name) = true) /\
  (forall name err,
     In (EvStat name err) (trace_of env g i) ->
     os.IsNotExist err = false ->
     count is_write_file (trace_of env g i) = 0%nat /\
     In (EvPrintf (MsgOutputExists name)) (trace_of env g i)) /\
  (forall name err,
     In (EvStat name err) (trace_of env g i) ->
     os.IsNotExist err = true ->
     exists data err', In (EvWriteFile name data 256 err') (trace_of env g i)).
Proof.
  run_of env g i. split; [|split; [|split]].
  - invert_exits; show_trace; lia.
  - intros name data perm err Hi.
    invert_exits; revert Hi; show_trace; intros Hi; in_trace.
    all: split; [reflexivity|]; split; [here|assumption].
  - intros name err Hi Hex.
    invert_exits; revert Hi; show_trace; intros Hi; in_trace;
      try congruence.
    all: split; [reflexivity|here].
  - intros name err Hi Hex.
    invert_exits; revert Hi; show_trace; intros Hi; in_trace;
      try congruence.
    all: eexists _, _; here.
Qed.

(** X6: "image written to ..." is printed exactly when the write of that
    file succeeded. *)
Theorem resize_reports_written_iff_written env g i name :
  In (EvPrintf (MsgWritten name)) (trace_of env g i) <->
  exists data, In (EvWriteFile name data 256 None) (trace_of env g i).
Proof.
  run_of env g i. split.
  - intros Hi. invert_exits; revert Hi; show_trace; intros Hi; in_trace.
    all: eexists; here.
  - intros [data Hi].
    invert_exits; revert Hi; show_trace; intros Hi; in_trace.
    all: here.
Qed.



(** ** Resources *)

(** X8: every resource a worker acquires is released exactly once, and
    nothing is released that was not acquired: in every trace the closes of
    the decoder, of the image operations and of the response body are as
    many as the decoders created, the image operations created and the
    responses received, and there is at most one of each. *)
Theorem resize_releases_what_it_acquires env g i :
  count is_decoder_close (trace_of env g i) =
    count is_decoder_created (trace_of env g i) /\
  count is_ops_close (trace_of env g i) =
    count is_ops_created (trace_of env g i) /\
  count is_body_close (trace_of env g i) =
    count is_response (trace_of env g i) /\
  (count is_decoder_created (trace_of env g i) <= 1)%nat /\
  (count is_ops_created (trace_of env g i) <= 1)%nat /\
  (count is_response (trace_of env g i) <= 1)%nat.
Proof.
  run_of env g i.
  invert_exits; show_trace; repeat split; lia.
Qed.

(** X9: the image operations are created with a maximum size of 8192, and
    only once the header has been read; they are then closed before the
    decoder, in the reverse order of their creation, as the last actions
    before [wg.Done()]. *)
Theorem resize_releases_in_reverse_order env g i n :
  In (EvNewImageOps n) (trace_of env g i) ->
  n = 8192 /\
  (exists h, In (EvHeader (Ok h)) (trace_of env g i)) /\
  exists pre,
    trace_of env g i = pre ++ [EvOpsClose; EvDecoderClose; EvWgDone] /\
    ~ In EvOpsClose pre /\ ~ In EvDecoderClose pre.
Proof.
  intros Hi. run_of env g i.
  invert_exits; revert Hi; show_trace; intros Hi; in_trace.
  all: split; [reflexivity|]; split; [eexists; here|].
  all: cut_trace
         ltac:(split; [reflexivity|]; split; intros Hc; in_trace)
         (@nil Event) 16%nat.
Qed.

Lemma resize_releases_in_reverse_order_witness :
  exists pre,
    trace_of Scenario.failing_env Sample.local_request 0 =
      pre ++ [EvOpsClose; EvDecoderClose; EvWgDone].
Proof.
  assert (Hi : In (EvNewImageOps 8192)
                  (trace_of Scenario.failing_env Sample.local_request 0))
    by computed_here.
  destruct (resize_releases_in_reverse_order
              Scenario.failing_env Sample.local_request 0 8192 Hi)
    as (_ & _ & pre & Ht & _).
  now exists pre.
Defined.

(** X10: the remote fetch is over before decoding starts: when the format
    detector is called, every response received has had its body closed,
    and after that call the worker sends no request, reads no body and
    closes no body. *)
Theorem resize_fetch_is_over_before_detection env g i buf r :
  In (EvNewDecoder buf r) (trace_of env g i) ->
  exists pre post,
    trace_of env g i = pre ++ EvNewDecoder buf r :: post /\
    count is_body_close pre = count is_response pre /\
    count is_get post = 0%nat /\
    count is_body_close post = 0%nat /\
    (forall x, ~ In (EvReadAll x) post).
Proof.
  intros Hi. run_of env g i.
  invert_exits; revert Hi; show_trace; intros Hi; in_trace.
  all: cut_trace
         ltac:(eexists; split; [reflexivity|]; split; [reflexivity|];
               split; [reflexivity|]; split; [reflexivity|];
               intros x Hc; in_trace)
         (@nil Event) 6%nat.
Qed.

Lemma resize_fetch_is_over_witness :
  exists pre post,
    trace_of Sample.env Sample.remote_request 0 =
      pre ++ EvNewDecoder Sample.page_bytes (Ok Sample.jpeg) :: post /\
    count is_body_close pre = count is_response pre /\
    count is_get post = 0%nat.
Proof.
  assert (Hi : In (EvNewDecoder Sample.page_bytes (Ok Sample.jpeg))
                  (trace_of Sample.env Sample.remote_request 0))
    by computed_here.
  destruct (resize_fetch_is_over_before_detection
              Sample.env Sample.remote_request 0 _ _ Hi)
    as (pre & post & Ht & Hc & Hg & _).
  exists pre, post. repeat split; assumption.
Defined.

(** ** The call of the transform *)

Lemma Fetched_functional env url t r t' r' :
  Fetched env url t r -> Fetched env url t' r' -> t = t' /\ r = r'.
Proof.
  intros H H'. inversion H; subst; inversion H'; subst;
    split; congruence.
Qed.

(** What is acquired depends on the package variables only through the two
    input names. *)
Lemma Acquired_functional env g g' t o t' o' :
  inputFilename g = inputFilename g' -> remoteInput g = remoteInput g' ->
  Acquired env g t o -> Acquired env g' t' o' -> o = o'.
Proof.
  intros Hin Hrem H H'.
  inversion H; subst; inversion H'; subst; try congruence;
    match goal with
    | H1 : Fetched _ _ _ _, H2 : Fetched _ _ _ _ |- _ =>
        rewrite Hrem in H1;
        destruct (Fetched_functional _ _ _ _ _ _ H1 H2); congruence
    end.
Qed.

(** Where a call of the transform comes from. *)
Lemma transform_in_run env g i t g' opts n r :
  Ran env g i t g' -> In (EvTransform opts n r) t ->
  exists tA buf d h,
    Acquired env g tA (Some buf) /\
    NewDecoder env buf = Ok d /\ lilliput.Header d = Ok h /\
    opts = target_options env g i h /\ n = outputImg_len /\
    r = Transform env d opts n /\ g' = resolved g h.
Proof.
  intros Hrun Hi.
  inversion Hrun as [| |tA buf tB ds g'' Hsome HA HP]; subst; clear Hrun.
  - in_trace.
  - exfalso. invert_paths; in_trace.
  - exists tA, buf.
    assert (HtA : ~ In (EvTransform opts n r) tA)
      by (intros Hc; clear - HA Hc; invert_paths; in_trace).
    apply in_app_or in Hi as [Hi|Hi]; [contradiction|].
    inversion HP; subst; clear HP; revert Hi; show_trace; intros Hi; in_trace.
    all: eexists _, _; repeat split; first [eassumption | reflexivity | idtac].
    all: congruence.
Qed.

(** X11: whatever the request, the transform is called with orientation
    normalisation on, with a 50 MiB output buffer, and with the resize
    method [ImageOpsResize] when [-stretch] is set and [ImageOpsFit]
    otherwise; it is never asked for [ImageOpsNoResize]. *)
Theorem resize_transform_settings env g i opts n r :
  In (EvTransform opts n r) (trace_of env g i) ->
  lilliput.ImageOptions.NormalizeOrientation opts = true /\
  n = 50 * 1024 * 1024 /\
  lilliput.ImageOptions.ResizeMethod opts =
    (if stretch g then lilliput.ImageOpsResize else lilliput.ImageOpsFit) /\
  lilliput.ImageOptions.ResizeMethod opts <> lilliput.ImageOpsNoResize.
Proof.
  intros Hi.
  destruct (transform_in_run env g i _ _ opts n r (run_resize_Ran env g i) Hi)
    as (tA & buf & d & h & _ & _ & _ & -> & -> & _).
  unfold target_options, resize_options. simpl.
  repeat split. now destruct (stretch g).
Qed.

Lemma resize_transform_settings_witness :
  lilliput.ImageOptions.ResizeMethod
    (target_options Sample.env Sample.both_request 2 Sample.header) =
  lilliput.ImageOpsResize.
Proof.
  apply (resize_transform_settings Sample.env Sample.both_request 2
           (target_options Sample.env Sample.both_request 2 Sample.header)
           outputImg_len (Ok Sample.out_bytes)).
  computed_here.
Defined.

(** X12: the transform gets codec options exactly when the caller's output
    name ends in [.jpeg], [.png] or [.webp]; for any other name ([.jpg] and
    [.gif] included, and no output name at all) the option set is empty and
    the codec's own defaults apply. *)
Theorem resize_encode_options_follow_output_name env g i opts n r :
  In (EvTransform opts n r) (trace_of env g i) ->
  lilliput.ImageOptions.EncodeOptions opts =
    EncodeOptions_at env (filepath.Ext (outputFilename g)) /\
  (lilliput.ImageOptions.EncodeOptions opts <> ∅ <->
   In (filepath.Ext (outputFilename g)) [".jpeg"; ".png"; ".webp"]).
Proof.
  intros Hi.
  destruct (transform_in_run env g i _ _ opts n r (run_resize_Ran env g i) Hi)
    as (tA & buf & d & h & _ & _ & _ & -> & _).
  unfold target_options, resize_options. simpl.
  rewrite worker_name_Ext. split; [reflexivity|].
  set (ext := filepath.Ext (outputFilename g)).
  unfold EncodeOptions_at, EncodeOptions.
  destruct (decide (ext = ".webp")) as [->|Hw].
  { rewrite lookup_insert_eq. simpl.
    split; [intros _; here|intros _; apply insert_non_empty]. }
  rewrite lookup_insert_ne by congruence.
  destruct (decide (ext = ".png")) as [->|Hp].
  { rewrite lookup_insert_eq. simpl.
    split; [intros _; here|intros _; apply insert_non_empty]. }
  rewrite lookup_insert_ne by congruence.
  destruct (decide (ext = ".jpeg")) as [->|Hj].
  { rewrite lookup_insert_eq. simpl.
    split; [intros _; here|intros _; apply insert_non_empty]. }
  rewrite lookup_insert_ne by congruence. rewrite lookup_empty. simpl.
  split; [congruence|]. intros Hin. in_trace; congruence.
Qed.

Lemma resize_encode_options_witness :
  lilliput.ImageOptions.EncodeOptions
    (target_options Sample.env Sample.remote_request 3 Sample.header) <> ∅.
Proof.
  assert (Hi : In (EvTransform
                     (target_options Sample.env Sample.remote_request 3
                        Sample.header)
                     outputImg_len (Ok Sample.out_bytes))
                  (trace_of Sample.env Sample.remote_request 3))
    by computed_here.
  apply (proj2 (resize_encode_options_follow_output_name
                  Sample.env Sample.remote_request 3 _ _ _ Hi)).
  right. left. reflexivity.
Defined.

(** ** The package variables after a run *)

Lemma resolved_width_set g h :
  outputWidth g <> 0 -> resolved_width g h = outputWidth g.
Proof.
  unfold resolved_width. now destruct (Z.eqb_spec (outputWidth g) 0).
Qed.

Lemma resolved_height_set g h :
  outputHeight g <> 0 -> resolved_height g h = outputHeight g.
Proof.
  unfold resolved_height. now destruct (Z.eqb_spec (outputHeight g) 0).
Qed.

(** X13: a run of [resize] changes no package variable but [outputWidth]
    and [outputHeight], and those only when they are 0 and the header has
    been read: each then takes the header's dimension.  A run that does not
    get to read the header leaves every package variable as it was. *)
Theorem resize_overwrites_unset_dimensions_only env g i :
  inputFilename (run_resize env g i).2 = inputFilename g /\
  remoteInput (run_resize env g i).2 = remoteInput g /\
  outputFilename (run_resize env g i).2 = outputFilename g /\
  stretch (run_resize env g i).2 = stretch g /\
  runs (run_resize env g i).2 = runs g /\
  (outputWidth g <> 0 ->
   outputWidth (run_resize env g i).2 = outputWidth g) /\
  (outputHeight g <> 0 ->
   outputHeight (run_resize env g i).2 = outputHeight g) /\
  (forall h, In (EvHeader (Ok h)) (trace_of env g i) ->
     outputWidth (run_resize env g i).2 =
       (if Z.eqb (outputWidth g) 0 then lilliput.Width h else outputWidth g) /\
     outputHeight (run_resize env g i).2 =
       (if Z.eqb (outputHeight g) 0 then lilliput.Height h
        else outputHeight g)) /\
  ((forall h, ~ In (EvHeader (Ok h)) (trace_of env g i)) ->
   (run_resize env g i).2 = g).
Proof.
  run_of env g i.
  assert (Hg : g' = g /\ (forall h, ~ In (EvHeader (Ok h)) t) \/
               exists h, g' = resolved g h /\ In (EvHeader (Ok h)) t /\
                         forall h', In (EvHeader (Ok h')) t -> h' = h).
  { invert_exits;
      first [ left; split; [reflexivity|];
              intros h0; show_trace; intros Hc; in_trace; fail
            | right; eexists; split; [reflexivity|];
              split; [show_trace; here|];
              intros h0; show_trace; intros Hc; in_trace; reflexivity ]. }
  destruct Hg as [[-> Hno]|(h & -> & Hin & Hh)].
  - do 5 (split; [reflexivity|]).
    split; [intros _; reflexivity|]. split; [intros _; reflexivity|].
    split; [intros h Hi; destruct (Hno h Hi)|intros _; reflexivity].
  - unfold resolved. simpl. do 5 (split; [reflexivity|]).
    split; [apply resolved_width_set|].
    split; [apply resolved_height_set|].
    split.
    + intros h' Hi. rewrite (Hh _ Hi). split; reflexivity.
    + intros Hno. destruct (Hno h Hin).
Qed.

Lemma resolved_again g h : resolved (resolved g h) h = resolved g h.
Proof.
  unfold resolved, resolved_width, resolved_height. destruct g as [a w ht b c d e].
  simpl.
  destruct (Z.eqb_spec w 0), (Z.eqb_spec ht 0); simpl;
    repeat match goal with
           | |- context [Z.eqb ?x 0] => destruct (Z.eqb_spec x 0)
           end; try reflexivity; congruence.
Qed.

(** The options do not depend on the worker's index, nor on whether an
    earlier worker has already stored the resolved dimensions. *)
Lemma target_options_stable env g i j h :
  target_options env (resolved g h) j h = target_options env g i h.
Proof.
  unfold target_options. rewrite resolved_again, !worker_name_Ext.
  reflexivity.
Qed.

(** X14: workers agree.  A worker that runs from the package variables an
    earlier worker left behind, against the same collaborators, calls the
    transform with the same options and the same buffer size as the earlier
    one, and gets the same answer: the dimensions the first worker stored
    are the ones the second would have resolved, and the options do not
    depend on the worker's index. *)
Theorem later_worker_transforms_alike env g i j opts n r opts' n' r' :
  In (EvTransform opts n r) (trace_of env g i) ->
  In (EvTransform opts' n' r') (trace_of env (run_resize env g i).2 j) ->
  opts' = opts /\ n' = n /\ r' = r.
Proof.
  intros Hi Hj.
  destruct (transform_in_run env g i _ _ opts n r (run_resize_Ran env g i) Hi)
    as (tA & buf & d & h & HA & Hd & Hh & -> & -> & -> & Hg).
  rewrite Hg in Hj.
  destruct (transform_in_run env (resolved g h) j _ _ opts' n' r'
              (run_resize_Ran env (resolved g h) j) Hj)
    as (tA' & buf' & d' & h' & HA' & Hd' & Hh' & -> & -> & -> & _).
  assert (Hbuf : Some buf = Some buf')
    by (apply (Acquired_functional env g (resolved g h) tA _ tA' _);
        auto).
  injection Hbuf as <-.
  assert (d' = d) as -> by congruence.
  assert (h' = h) as -> by congruence.
  rewrite (target_options_stable env g i j h). repeat split.
Qed.

Lemma later_worker_transforms_alike_witness :
  target_options Sample.env
    (run_resize Sample.env Sample.local_request 0).2 1 Sample.header =
  target_options Sample.env Sample.local_request 0 Sample.header.
Proof.
  assert (Hi : In (EvTransform
                     (target_options Sample.env Sample.local_request 0
                        Sample.header)
                     outputImg_len (Ok Sample.out_bytes))
                  (trace_of Sample.env Sample.local_request 0))
    by computed_here.
  assert (Hj : In (EvTransform
                     (target_options Sample.env
                        (run_resize Sample.env Sample.local_request 0).2 1
                        Sample.header)
                     outputImg_len (Ok Sample.out_bytes))
                  (trace_of Sample.env
                     (run_resize Sample.env Sample.local_request 0).2 1))
    by computed_here.
  exact (proj1 (later_worker_transforms_alike
                  Sample.env Sample.local_request 0 1 _ _ _ _ _ _ Hi Hj)).
Defined.

(** ** Acquiring the input *)

(** X15: a worker asks for its input once and never retries: it reads the
    file exactly once when an input file name is given, sends exactly one
    request when only a URL is given, and does neither when both are
    missing; the file read is the one named by [-input] and the request
    goes to the URL of [-remoteInput]. *)
Theorem resize_acquires_once env g i :
  count is_read_file (trace_of env g i) =
    (if String.eqb (inputFilename g) "" then 0 else 1)%nat /\
  count is_get (trace_of env g i) =
    (if String.eqb (inputFilename g) ""
     then if String.eqb (remoteInput g) "" then 0 else 1
     else 0)%nat /\
  (forall name r, In (EvReadFile name r) (trace_of env g i) ->
     name = inputFilename g) /\
  (forall url r, In (EvGet url r) (trace_of env g i) ->
     url = remoteInput g).
Proof.
  run_of env g i. split; [|split; [|split]].
  - invert_exits; show_trace;
      repeat match goal with
             | H : _ <> "" |- _ => apply String.eqb_neq in H; rewrite H
             | H : _ = "" |- _ => apply String.eqb_eq in H; rewrite H
             end; reflexivity.
  - invert_exits; show_trace;
      repeat match goal with
             | H : _ <> "" |- _ => apply String.eqb_neq in H; rewrite H
             | H : _ = "" |- _ => apply String.eqb_eq in H; rewrite H
             end; reflexivity.
  - intros name r Hi.
    invert_exits; revert Hi; show_trace; intros Hi; in_trace; reflexivity.
  - intros url r Hi.
    invert_exits; revert Hi; show_trace; intros Hi; in_trace; reflexivity.
Qed.

(** ** What is printed about the image *)

(** X16: once the header has been read the worker prints the decoder's
    description and the header's width and height; it prints a duration
    exactly when the decoder reports a non-zero one, and then that one. *)
Theorem resize_prints_image_info env g i buf d h :
  In (EvNewDecoder buf (Ok d)) (trace_of env g i) ->
  In (EvHeader (Ok h)) (trace_of env g i) ->
  In (EvPrintf (MsgFileType (lilliput.Description d))) (trace_of env g i) /\
  In (EvPrintf (MsgSize (lilliput.Width h) (lilliput.Height h)))
     (trace_of env g i) /\
  (In (EvPrintf (MsgDuration (lilliput.Duration d))) (trace_of env g i) <->
   lilliput.Duration d <> 0) /\
  (forall x, In (EvPrintf (MsgDuration x)) (trace_of env g i) ->
     x = lilliput.Duration d).
Proof.
  intros Hd Hh. run_of env g i.
  invert_exits; revert Hd Hh; unfold prologue, duration_note;
    match goal with
    | |- context [Z.eqb (lilliput.Duration ?d0) 0] =>
        destruct (Z.eqb_spec (lilliput.Duration d0) 0) as [Hz|Hz]
    | _ => idtac
    end;
    simpl; intros Hd Hh; in_trace.
  all: split; [here|]; split; [here|]; split;
    [ split; [intros Hp; in_trace; congruence | intros Hn; first [congruence | here]]
    | intros x Hp; in_trace; reflexivity ].
Qed.

Lemma resize_prints_image_info_witness :
  In (EvPrintf (MsgDuration 2000000000))
     (trace_of Scenario.gif_env Sample.local_request 0).
Proof.
  assert (Hd : In (EvNewDecoder Sample.file_bytes (Ok Scenario.gif))
                  (trace_of Scenario.gif_env Sample.local_request 0))
    by computed_here.
  assert (Hh : In (EvHeader (Ok {| lilliput.Width := 320;
                                   lilliput.Height := 240 |}))
                  (trace_of Scenario.gif_env Sample.local_request 0))
    by computed_here.
  apply (proj2 (proj1 (proj2 (proj2
           (resize_prints_image_info Scenario.gif_env Sample.local_request 0
              _ _ _ Hd Hh))))).
  discriminate.
Defined.

(** ** The command without flags *)

(** X17: run without any flag, the command starts exactly one worker,
    worker 0, and that worker prints the usage error and touches neither
    file nor network, whatever the collaborators would answer. *)
Theorem main_without_flags env :
  spawned (main flag_defaults) = [0] /\
  forall i,
    run_resize env flag_defaults i =
      ([EvPrintf MsgNoInput; EvUsage; EvWgDone], flag_defaults).
Proof.
  split; [reflexivity|]. intros i.
  unfold run_resize, call, resize. unfold_fn. reflexivity.
Qed.

(** ** Running to the end *)

(** X18: a worker that is given an input, meets no failing call and finds
    no file under its output name goes through all five steps and ends by
    writing the transformed bytes to its name and printing that it did:
    nothing but an error or an existing file stops it. *)
Theorem resize_completes_unless_stopped env g i :
  inputFilename g <> "" \/ remoteInput g <> "" ->
  forallb (fun e => negb (failed e)) (trace_of env g i) = true ->
  (forall name err, In (EvStat name err) (trace_of env g i) ->
     os.IsNotExist err = true) ->
  steps (trace_of env g i) = pipeline /\
  exists data,
    In (EvWriteFile (worker_name i g) data 256 None) (trace_of env g i) /\
    In (EvPrintf (MsgWritten (worker_name i g))) (trace_of env g i).
Proof.
  intros Hinput Hok Hstat. run_of env g i.
  invert_exits; try (destruct Hinput; congruence);
    revert Hok Hstat; show_trace; intros Hok Hstat; try discriminate.
  all: try (assert (Hex := Hstat _ _ ltac:(here)); congruence).
  all: split; [reflexivity|]; eexists; split; here.
Qed.

Lemma resize_completes_witness :
  steps (trace_of Sample.env Sample.both_request 2) = pipeline.
Proof.
  apply (resize_completes_unless_stopped Sample.env Sample.both_request 2).
  - left. discriminate.
  - reflexivity.
  - intros name err Hi. vm_compute in Hi. in_trace. reflexivity.
Defined.

(** ** Sample runs *)

Example itoa_samples :
  fmt.itoa 0 = "0" /\ fmt.itoa 12 = "12" /\ fmt.itoa (-7) = "-7".
Proof. repeat split. Qed.

Example Ext_samples :
  filepath.Ext "out.png" = ".png" /\ filepath.Ext "0-" = "" /\
  filepath.Ext "a.b/c" = "" /\ filepath.Ext "dir/x.tar.gz" = ".gz" /\
  filepath.Ext "3-pic.jpeg" = ".jpeg".
Proof. repeat split. Qed.

Example ToLower_samples :
  strings.ToLower "JPEG" = "jpeg" /\ strings.ToLower "WebP-1" = "webp-1".
Proof. repeat split. Qed.

(** [-input in.jpg] alone, worker 0: the whole run. *)
Example local_run :
  run_resize Sample.env Sample.local_request 0 =
    ([EvReadFile "in.jpg" (Ok Sample.file_bytes);
      EvNewDecoder Sample.file_bytes (Ok Sample.jpeg);
      EvHeader (Ok Sample.header);
      EvPrintf (MsgFileType "JPEG");
      EvPrintf (MsgSize 4000 3000);
      EvNewImageOps 8192;
      EvTransform
        {| lilliput.ImageOptions.FileType := "";
           lilliput.ImageOptions.Width := 4000;
           lilliput.ImageOptions.Height := 3000;
           lilliput.ImageOptions.ResizeMethod := lilliput.ImageOpsFit;
           lilliput.ImageOptions.NormalizeOrientation := true;
           lilliput.ImageOptions.EncodeOptions := ∅ |}
        52428800 (Ok Sample.out_bytes);
      EvStat "0-" (Some (ErrNotExist "0-"));
      EvWriteFile "0-" Sample.out_bytes 256 None;
      EvPrintf (MsgWritten "0-");
      EvOpsClose; EvDecoderClose; EvWgDone],
     set_outputHeight 3000 (set_outputWidth 4000 Sample.local_request)).
Proof. vm_compute. reflexivity. Qed.

(** [-remoteInput ... -output out.png -width 800], worker 3, against a
    server that answers 404: the steps all run. *)
Example remote_run_steps :
  steps (trace_of Sample.env Sample.remote_request 3) = pipeline /\
  In (EvWriteFile "3-out.png" Sample.out_bytes 256 None)
     (trace_of Sample.env Sample.remote_request 3).
Proof. split; [reflexivity | computed_here]. Qed.
